(** * Adani Ports stock dashboard ([app.py]): feature pipeline and page script

    A shallow embedding of [load_data] and of the page script that follows
    it, together with the behaviour of the library calls they make
    (pandas series and frame operations, [scipy.stats.mstats.winsorize]).

    Numbers.  A float64 cell is idealised as an exact rational ([Qc]), or
    nothing.  In a column read from the file, [None] is the missing value
    NaN.  In a derived column [None] stands for any value that is not a
    finite number: NaN, and also the infinities that a division by zero
    yields.  Rounding is not modelled. *)

From Stdlib Require Import QArith Qcanon Qround.
From stdpp Require Import base numbers list strings sorting.

Abbreviation cell := (option Qc).

(** ** Exceptions and the two monads of the script *)

Inductive exn :=
| KeyError (names : list string)
| IndexError
| ValueError
| TypeError
| AttributeError.

Inductive result (A : Type) :=
| Ok (a : A)
| Raise (e : exn).
Arguments Ok {A} a.
Arguments Raise {A} e.

#[global] Instance result_ret : MRet result := λ A a, Ok a.
#[global] Instance result_bind : MBind result := λ A B f m,
  match m with Ok a => f a | Raise e => Raise e end.
#[global] Instance result_fmap : FMap result := λ A B f m,
  match m with Ok a => Ok (f a) | Raise e => Raise e end.

Definition is_ok {A} (r : result A) : bool :=
  match r with Ok _ => true | Raise _ => false end.

(** A statement of the script runs on a mutable store [S]; when it raises,
    the store keeps what was written before. *)
Definition M (S A : Type) : Type := S → result A * S.

#[global] Instance M_ret {S} : MRet (M S) := λ A a s, (Ok a, s).
#[global] Instance M_bind {S} : MBind (M S) := λ A B f m s,
  match m s with
  | (Ok a, s') => f a s'
  | (Raise e, s') => (Raise e, s')
  end.

Definition lift {S A} (r : result A) : M S A := λ s, (r, s).
Definition gets {S A} (f : S → A) : M S A := λ s, (Ok (f s), s).
Definition modify {S} (f : S → S) : M S () := λ s, (Ok (), f s).

(** ** Python indexing *)

(** [l[i]] for an integer [i]: a negative index counts from the end. *)
Definition py_index {A} (l : list A) (i : Z) : result A :=
  let n := Z.of_nat (length l) in
  let j := if decide (i < 0)%Z then (i + n)%Z else i in
  if decide (0 ≤ j < n)%Z
  then from_option Ok (Raise IndexError) (l !! Z.to_nat j)
  else Raise IndexError.

(** The bound of a slice is clipped into [0..len]. *)
Definition py_bound (n : nat) (i : Z) : nat :=
  if decide (i < 0)%Z then Z.to_nat (i + Z.of_nat n) else Nat.min (Z.to_nat i) n.

(** [l[:stop]] and [l[start:]]. *)
Definition py_slice_to {A} (l : list A) (stop : Z) : list A :=
  take (py_bound (length l) stop) l.
Definition py_slice_from {A} (l : list A) (start : Z) : list A :=
  drop (py_bound (length l) start) l.

(** [a[js] = v] for an index array [js]. *)
Definition assign_at {A} (js : list nat) (v : A) (a : list A) : list A :=
  foldl (λ acc j, <[j:=v]> acc) a js.

(** ** Cell arithmetic *)

Definition ZQc (z : Z) : Qc := Q2Qc (inject_Z z).
Definition natQc (n : nat) : Qc := ZQc (Z.of_nat n).

(** [int(x)] for [x >= 0].  The float product [0.01 * n] is taken as the
    exact one: the two have the same integer part for every row count a
    file can have. *)
Definition int (x : Qc) : Z := Qfloor x.

Definition cell_sub (x y : cell) : cell :=
  match x, y with
  | Some a, Some b => Some (a - b)%Qc
  | _, _ => None
  end.

(** A quotient by zero is not a finite number. *)
Definition cell_div (x y : cell) : cell :=
  match x, y with
  | Some a, Some b => if decide (b = 0%Qc) then None else Some (a / b)%Qc
  | _, _ => None
  end.

(** NaN sorts after every number, as in [numpy]. *)
Definition cell_le (x y : cell) : Prop :=
  match x, y with
  | _, None => True
  | None, Some _ => False
  | Some a, Some b => (a ≤ b)%Qc
  end.

#[global] Instance cell_le_dec : RelDecision cell_le.
Proof. intros [a|] [b|]; simpl; apply _. Defined.

Definition key_le (p q : cell * nat) : Prop := cell_le p.1 q.1.

#[global] Instance key_le_dec : RelDecision key_le.
Proof. intros p q. unfold key_le. apply _. Defined.

(** ** Series operations (pandas) *)

Definition sumQc (xs : list Qc) : Qc := foldr Qcplus 0%Qc xs.

(** The observations of a window: its cells that are numbers. *)
Definition observations (xs : list cell) : list Qc := omap id xs.

Definition mean (obs : list Qc) : cell :=
  match obs with
  | [] => None
  | _ => Some (sumQc obs / natQc (length obs))%Qc
  end.

(** Sample variance, [ddof = 1]. *)
Definition var (obs : list Qc) : cell :=
  match mean obs with
  | Some m =>
      if decide (length obs ≤ 1) then None
      else Some (sumQc ((λ x, (x - m) * (x - m))%Qc <$> obs)
                 / natQc (length obs - 1))%Qc
  | None => None
  end.

(** [s.shift(1)] *)
Definition shift (xs : list cell) : list cell :=
  take (length xs) (None :: xs).

(** [s.ffill()]: a missing cell takes the last value seen before it. *)
Fixpoint ffill_from (last : cell) (xs : list cell) : list cell :=
  match xs with
  | [] => []
  | x :: xs' =>
      let v := match x with Some _ => x | None => last end in
      v :: ffill_from v xs'
  end.
Definition ffill (xs : list cell) : list cell := ffill_from None xs.

(** [s.pct_change()]: [data / data.shift(1) - 1].  The library's default
    for [fill_method] changed over its versions: [pad] says whether the
    series is forward-filled first. *)
Definition pct_change (pad : bool) (xs : list cell) : list cell :=
  let data := if pad then ffill xs else xs in
  zip_with (λ x y, cell_sub (cell_div x y) (Some 1%Qc)) data (shift data).

(** The rows of the fixed window of width [w] that ends at row [i]. *)
Definition window (w i : nat) (xs : list cell) : list cell :=
  drop (S i - w) (take (S i) xs).

(** [s.rolling(window=w).agg()]: [min_periods] defaults to [w], so a row
    has a value only when its window holds [w] observations. *)
Definition rolling (w : nat) (agg : list Qc → cell) (xs : list cell) : list cell :=
  imap (λ i _,
    let obs := observations (window w i xs) in
    if decide (length obs < w) then None else agg obs) xs.

Definition rolling_mean (w : nat) : list cell → list cell := rolling w mean.
Definition rolling_var (w : nat) : list cell → list cell := rolling w var.

(** [s.mean()] skips the missing cells. *)
Definition series_mean (xs : list cell) : cell := mean (observations xs).

(** ** Winsorization (scipy) *)

(** [a.argsort()]: the positions of [a], from the smallest cell to the
    greatest.  Positions of equal cells may come in any order in the
    library; the model takes the order of a merge sort. *)
Definition argsort (a : list cell) : list nat :=
  (merge_sort key_le (zip a (seq 0 (length a)))).*2.

(** [_winsorize1D] with [inclusive=(True, True)], [nan_policy='propagate']. *)
Definition winsorize1D (low_limit up_limit : option Qc) (a : list cell)
  : result (list cell) :=
  let n := length a in
  let idx := argsort a in
  a ← match low_limit with
      | Some low =>
          if decide (low = 0%Qc) then Ok a
          else
            let lowidx := int (low * natQc n) in
            j ← py_index idx lowidx;
            v ← py_index a (Z.of_nat j);
            Ok (assign_at (py_slice_to idx lowidx) v a)
      | None => Ok a
      end;
  match up_limit with
  | Some up =>
      let upidx := (Z.of_nat n - int (natQc n * up))%Z in
      j ← py_index idx (upidx - 1);
      v ← py_index a (Z.of_nat j);
      Ok (assign_at (py_slice_from idx upidx) v a)
  | None => Ok a
  end.

Definition limit_ok (l : option Qc) : bool :=
  match l with
  | Some x => bool_decide (0 ≤ x)%Qc && bool_decide (x ≤ 1)%Qc
  | None => true
  end.

(** [winsorize(a, limits=[lolim, uplim])] *)
Definition winsorize (a : list cell) (limits : option Qc * option Qc)
  : result (list cell) :=
  let '(lolim, uplim) := limits in
  if negb (limit_ok lolim) then Raise ValueError
  else if negb (limit_ok uplim) then Raise ValueError
  else winsorize1D lolim uplim a.

Definition hundredth : Qc := Q2Qc (1 # 100).

(** ** Data frames (pandas) *)

Record datetime := { year : Z; month : Z; day : Z; time_ns : Z }.

(** A column with its dtype: text ([object]), timestamps where [None] is
    NaT, or numbers where [None] is NaN. *)
Inductive column :=
| Object (xs : list (option string))
| Datetime (xs : list (option datetime))
| Numeric (xs : list cell).

Inductive dtype := dtype_object | dtype_datetime64 | dtype_number.

(** A frame: the row labels and the named columns, in display order. *)
Record DataFrame := {
  index : list nat;
  columns : list (string * column)
}.

Definition col_length (c : column) : nat :=
  match c with
  | Object xs => length xs
  | Datetime xs => length xs
  | Numeric xs => length xs
  end.

Definition col_dtype (c : column) : dtype :=
  match c with
  | Object _ => dtype_object
  | Datetime _ => dtype_datetime64
  | Numeric _ => dtype_number
  end.

Definition notna {A} (x : option A) : bool :=
  match x with Some _ => true | None => false end.

Definition col_notna (c : column) : list bool :=
  match c with
  | Object xs => notna <$> xs
  | Datetime xs => notna <$> xs
  | Numeric xs => notna <$> xs
  end.

(** The rows of [xs] where [mask] holds, in their order. *)
Fixpoint keep {A} (mask : list bool) (xs : list A) : list A :=
  match mask, xs with
  | b :: mask', x :: xs' => if b then x :: keep mask' xs' else keep mask' xs'
  | _, _ => []
  end.

Definition col_keep (mask : list bool) (c : column) : column :=
  match c with
  | Object xs => Object (keep mask xs)
  | Datetime xs => Datetime (keep mask xs)
  | Numeric xs => Numeric (keep mask xs)
  end.

Definition col_take (n : nat) (c : column) : column :=
  match c with
  | Object xs => Object (take n xs)
  | Datetime xs => Datetime (take n xs)
  | Numeric xs => Numeric (take n xs)
  end.

(** [s.dropna()] on one column. *)
Definition col_dropna (c : column) : column := col_keep (col_notna c) c.

Fixpoint alist_lookup (name : string) (cols : list (string * column))
  : option column :=
  match cols with
  | [] => None
  | (k, c) :: cols' => if decide (k = name) then Some c else alist_lookup name cols'
  end.

(** An existing column is replaced where it stands, a new one goes last. *)
Fixpoint alist_set (name : string) (c : column) (cols : list (string * column))
  : list (string * column) :=
  match cols with
  | [] => [(name, c)]
  | (k, c') :: cols' =>
      if decide (k = name) then (k, c) :: cols' else (k, c') :: alist_set name c cols'
  end.

Definition nrows (df : DataFrame) : nat := length (index df).

Definition missing_names (names : list string) (df : DataFrame) : list string :=
  filter (λ n, alist_lookup n (columns df) = None) names.

(** [df[name]] *)
Definition getitem (name : string) : M DataFrame column := λ df,
  match alist_lookup name (columns df) with
  | Some c => (Ok c, df)
  | None => (Raise (KeyError [name]), df)
  end.

(** [df[name] = c]: the values must be as many as the rows. *)
Definition setitem (name : string) (c : column) : M DataFrame () := λ df,
  if decide (col_length c = nrows df)
  then (Ok (), {| index := index df; columns := alist_set name c (columns df) |})
  else (Raise ValueError, df).

(** [df[[names]]]: a new frame of the named columns. *)
Definition select (names : list string) : M DataFrame DataFrame := λ df,
  match missing_names names df with
  | [] => (Ok {| index := index df;
                 columns := omap (λ n, (n,.) <$> alist_lookup n (columns df)) names |}, df)
  | miss => (Raise (KeyError miss), df)
  end.

(** The rows that have a value in every column of [subset]. *)
Definition notna_rows (subset : list string) (df : DataFrame) : list bool :=
  foldr (λ n mask,
           zip_with andb (from_option col_notna [] (alist_lookup n (columns df))) mask)
        (replicate (nrows df) true) subset.

(** [df.dropna(subset=subset, inplace=True)] *)
Definition dropna (subset : list string) : M DataFrame () := λ df,
  match missing_names subset df with
  | [] =>
      let mask := notna_rows subset df in
      (Ok (), {| index := keep mask (index df);
                 columns := prod_map id (col_keep mask) <$> columns df |})
  | miss => (Raise (KeyError miss), df)
  end.

(** [df.head()] *)
Definition head (df : DataFrame) : DataFrame :=
  {| index := take 5 (index df);
     columns := prod_map id (col_take 5) <$> columns df |}.

(** [df.shape] *)
Definition shape (df : DataFrame) : nat * nat := (nrows df, length (columns df)).

(** [df.isnull().sum()] *)
Definition isnull_sum (df : DataFrame) : list (string * nat) :=
  prod_map id (λ c, length (filter (λ b, b = false) (col_notna c))) <$> columns df.

(** [df.dtypes] *)
Definition dtypes (df : DataFrame) : list (string * dtype) :=
  prod_map id col_dtype <$> columns df.

Definition numeric (c : column) : result (list cell) :=
  match c with
  | Numeric xs => Ok xs
  | _ => Raise TypeError
  end.

(** [df.groupby(key)[val].mean()]: one mean for each value of the key, the
    keys in increasing order; rows with a missing key are left out. *)
Definition groupby_mean (keys vals : list cell) : list (Qc * cell) :=
  let ks := remove_dups (merge_sort Qcle (observations keys)) in
  (λ k, (k, series_mean (keep ((λ c, bool_decide (c = Some k)) <$> keys) vals))) <$> ks.

(** ** What the script takes from its libraries as given

    The reading of a date out of text or out of a number, the default of
    [pct_change(fill_method=...)], and the square root on floats. *)
Record library := {
  parse_datetime : string → option datetime;
  epoch_datetime : Qc → option datetime;
  pct_change_pad : bool;
  sqrt : Qc → Qc
}.

(** [pd.to_datetime(c)]: a missing cell becomes NaT, a cell that cannot be
    read fails the call. *)
Definition to_datetime (L : library) (c : column) : result (list (option datetime)) :=
  let read {A} (f : A → option datetime) (xs : list (option A)) :=
    from_option Ok (Raise ValueError)
      (mapM (λ x, match x with
                  | Some a => Some <$> f a
                  | None => Some None
                  end) xs) in
  match c with
  | Object xs => read (parse_datetime L) xs
  | Datetime xs => Ok xs
  | Numeric xs => read (epoch_datetime L) xs
  end.

(** [c.dt.month] *)
Definition dt_month (c : column) : result (list cell) :=
  match c with
  | Datetime xs => Ok ((λ d : option datetime, (λ t, ZQc (month t)) <$> d) <$> xs)
  | _ => Raise AttributeError
  end.

(** [s.rolling(window=w).std()] and [s.std()] *)
Definition rolling_std (L : library) (w : nat) (xs : list cell) : list cell :=
  (λ c : cell, sqrt L <$> c) <$> rolling_var w xs.
Definition series_std (L : library) (xs : list cell) : cell :=
  sqrt L <$> var (observations xs).

(** ** The feature pipeline: [load_data] *)

Definition limits : option Qc * option Qc := (Some hundredth, Some hundredth).

(** The body of [load_data], statement by statement, on the frame that
    [pd.read_csv(file)] returned. *)
Definition load_data_body (L : library) : M DataFrame () :=
  (* df['Date'] = pd.to_datetime(df['Date']) *)
  date ← getitem "Date";
  date ← lift (to_datetime L date);
  setitem "Date" (Datetime date);;
  (* df.dropna(subset=['Trades'], inplace=True) *)
  dropna ["Trades"];;
  (* df['Volume'] = winsorize(df['Volume'], limits=[0.01, 0.01]) *)
  volume ← getitem "Volume";
  volume ← lift (numeric volume);
  volume ← lift (winsorize volume limits);
  setitem "Volume" (Numeric volume);;
  (* df['Daily_Return'] = df['Close'].pct_change() *)
  close ← getitem "Close";
  close ← lift (numeric close);
  setitem "Daily_Return" (Numeric (pct_change (pct_change_pad L) close));;
  (* df['MA5'] = df['Close'].rolling(window=5).mean(), and MA20, MA50 *)
  close ← getitem "Close";
  close ← lift (numeric close);
  setitem "MA5" (Numeric (rolling_mean 5 close));;
  close ← getitem "Close";
  close ← lift (numeric close);
  setitem "MA20" (Numeric (rolling_mean 20 close));;
  close ← getitem "Close";
  close ← lift (numeric close);
  setitem "MA50" (Numeric (rolling_mean 50 close));;
  (* df['Volume_Change'] = df['Volume'].pct_change() *)
  volume ← getitem "Volume";
  volume ← lift (numeric volume);
  setitem "Volume_Change" (Numeric (pct_change (pct_change_pad L) volume));;
  (* df['High_Low_Difference'] = df['High'] - df['Low'] *)
  high ← getitem "High";
  low ← getitem "Low";
  high ← lift (numeric high);
  low ← lift (numeric low);
  setitem "High_Low_Difference" (Numeric (zip_with cell_sub high low));;
  (* df['Rolling_Volatility_20'] = df['Daily_Return'].rolling(window=20).std() *)
  ret ← getitem "Daily_Return";
  ret ← lift (numeric ret);
  setitem "Rolling_Volatility_20" (Numeric (rolling_std L 20 ret));;
  (* df['Rolling_Mean_20'] = df['Daily_Return'].rolling(window=20).mean() *)
  ret ← getitem "Daily_Return";
  ret ← lift (numeric ret);
  setitem "Rolling_Mean_20" (Numeric (rolling_mean 20 ret));;
  (* df['Month'] = df['Date'].dt.month *)
  date ← getitem "Date";
  months ← lift (dt_month date);
  setitem "Month" (Numeric months).

(** [load_data(file)]: the frame is local to the call and is returned when
    every statement went through. *)
Definition load_data (L : library) (file : DataFrame) : result DataFrame :=
  match load_data_body L file with
  | (Ok _, df) => Ok df
  | (Raise e, _) => Raise e
  end.

(** [df[name]] of a frame that is not being written. *)
Definition column_of (name : string) (df : DataFrame) : option column :=
  alist_lookup name (columns df).

(** ** The page: what the script hands to streamlit and matplotlib *)

(** A table on the page.  What [describe()] and [corr()] compute is left
    to the library: the table records the frame they are called on. *)
Inductive table :=
| Frame (d : DataFrame)
| Describe (d : DataFrame)
| Corr (d : DataFrame).

Inductive value :=
| Text (s : string)
| Shape (s : nat * nat)
| Counts (c : list (string * nat))
| Dtypes (d : list (string * dtype)).

Abbreviation kwargs := (list (string * string)).

Inductive artist :=
| Hist_frame (d : DataFrame) (bins : nat)
| Plot (x y : column) (kw : kwargs)
| Hist (x : column) (bins : nat) (kw : kwargs)
| Heatmap (t : table) (kw : kwargs)
| Scatter (x y : column) (kw : kwargs)
| Bar (bars : list (Qc * cell)) (kw : kwargs)
| Set_title (s : string)
| Set_xticks (ticks : list nat)
| Legend
| Grid.

(** A figure: its artists, each with the number of the axes it is on. *)
Abbreviation figure := (list (nat * artist)).

(** An element of the page; [container] numbers the layout column it is
    in.  A metric carries the number before it is formatted. *)
Inductive element :=
| Title (s : string)
| Header (s : string)
| Subheader (s : string)
| Warning (s : string)
| Dataframe (t : table)
| Write (container : nat) (args : list value)
| Pyplot (fig : figure)
| Metric (container : nat) (label : string) (v : cell)
| Exception (e : exn).

Record flags := { show_eda : bool; show_visuals : bool; show_metrics : bool }.

(** The store of the script after the load: the module-level [df] and the
    page rendered so far. *)
Record session := { df : DataFrame; page : list element }.

(** A call of [st.*] adds an element to the page. *)
Definition st (e : element) : M session () :=
  modify (λ s, {| df := df s; page := page s ++ [e] |}).

(** A frame operation on [df]; what it leaves of the frame is [df] from
    then on. *)
Definition frame {A} (m : M DataFrame A) : M session A := λ s,
  let '(r, d) := m (df s) in (r, {| df := d; page := page s |}).

Definition when {S} (b : bool) (m : M S ()) : M S () :=
  if b then m else mret ().

Definition ohlcv : list string := ["Open"; "High"; "Low"; "Close"; "Volume"].

Definition corr_cols : list string :=
  ["Open"; "High"; "Low"; "Close"; "VWAP"; "Volume"; "Daily_Return"; "MA5";
   "MA20"; "MA50"; "Volume_Change"; "High_Low_Difference"].

(** [ax.plot(df[x], df[y], **kw)] *)
Definition plot (x y : string) (kw : kwargs) : M session (nat * artist) :=
  dx ← frame (getitem x);
  dy ← frame (getitem y);
  mret (0, Plot dx dy kw).

Definition eda_section : M session () :=
  st (Header "🔍 Data Overview");;
  st (Subheader "First 5 Rows of the Dataset");;
  h ← frame (gets head);
  st (Dataframe (Frame h));;
  st (Subheader "Dataset Info");;
  sh ← frame (gets shape);
  st (Write 1 [Text "Shape:"; Shape sh]);;
  st (Write 1 [Text "Missing Values:"]);;
  nulls ← frame (gets isnull_sum);
  st (Write 1 [Counts nulls]);;
  st (Write 2 [Text "Data Types:"]);;
  types ← frame (gets dtypes);
  st (Write 2 [Dtypes types]);;
  st (Subheader "Descriptive Statistics");;
  prices ← frame (select ohlcv);
  st (Dataframe (Describe prices)).

Definition visuals_section : M session () :=
  st (Header "📉 Visual Explorations");;
  st (Subheader "Price Distribution Histograms");;
  prices ← frame (select ohlcv);
  st (Pyplot [(0, Hist_frame prices 30)]);;
  st (Subheader "Stock Prices Over Time");;
  l1 ← plot "Date" "Open" [("label", "Open"); ("color", "blue")];
  l2 ← plot "Date" "High" [("label", "High"); ("color", "green")];
  l3 ← plot "Date" "Low" [("label", "Low"); ("color", "red")];
  l4 ← plot "Date" "Close" [("label", "Close"); ("color", "purple")];
  st (Pyplot [l1; l2; l3; l4; (0, Set_title "Stock Prices Over Time");
              (0, Legend); (0, Grid)]);;
  st (Subheader "Trading Volume Over Time");;
  l1 ← plot "Date" "Volume" [("color", "orange")];
  st (Pyplot [l1; (0, Set_title "Trading Volume Over Time"); (0, Grid)]);;
  st (Subheader "Moving Averages");;
  l1 ← plot "Date" "Close" [("label", "Close Price"); ("color", "blue")];
  l2 ← plot "Date" "MA5" [("label", "5-day MA"); ("linestyle", "--"); ("color", "red")];
  l3 ← plot "Date" "MA20" [("label", "20-day MA"); ("linestyle", "-."); ("color", "green")];
  l4 ← plot "Date" "MA50" [("label", "50-day MA"); ("linestyle", ":"); ("color", "purple")];
  st (Pyplot [l1; l2; l3; l4; (0, Set_title "Close Price with Moving Averages");
              (0, Legend); (0, Grid)]);;
  st (Subheader "Distribution of Returns & Volume Change");;
  ret ← frame (getitem "Daily_Return");
  chg ← frame (getitem "Volume_Change");
  st (Pyplot [(0, Hist (col_dropna ret) 50 [("color", "skyblue"); ("edgecolor", "black")]);
              (0, Set_title "Daily Return");
              (1, Hist (col_dropna chg) 50 [("color", "salmon"); ("edgecolor", "black")]);
              (1, Set_title "Volume Change")]);;
  st (Subheader "Correlation Matrix Heatmap");;
  sub ← frame (select corr_cols);
  st (Pyplot [(0, Heatmap (Corr sub) [("annot", "True"); ("fmt", ".2f"); ("cmap", "coolwarm")])]);;
  st (Subheader "Volatility Trend Over Time");;
  l1 ← plot "Date" "Rolling_Volatility_20" [("color", "red")];
  st (Pyplot [l1; (0, Set_title "Rolling Volatility (20 Days)")]);;
  st (Subheader "Volume vs Return Scatter");;
  chg ← frame (getitem "Volume_Change");
  ret ← frame (getitem "Daily_Return");
  st (Pyplot [(0, Scatter chg ret [("alpha", "0.5")]);
              (0, Set_title "Volume Change vs Daily Return")]);;
  st (Subheader "Average Monthly Return");;
  months ← frame (getitem "Month");
  ret ← frame (getitem "Daily_Return");
  months ← lift (numeric months);
  ret ← lift (numeric ret);
  st (Pyplot [(0, Bar (groupby_mean months ret) [("color", "lightblue")]);
              (0, Set_xticks (seq 1 12));
              (0, Set_title "Average Daily Return by Month")]).

Definition metrics_section (L : library) : M session () :=
  st (Header "📌 Key Metrics");;
  ret ← frame (getitem "Daily_Return");
  ret ← lift (numeric ret);
  st (Metric 1 "Avg Daily Return" (series_mean ret));;
  ret ← frame (getitem "Daily_Return");
  ret ← lift (numeric ret);
  st (Metric 2 "Volatility (Std Dev)" (series_std L ret));;
  volume ← frame (getitem "Volume");
  volume ← lift (numeric volume);
  st (Metric 3 "Avg Trading Volume" (series_mean volume)).

(** The sections of the page, each behind its checkbox. *)
Definition render (L : library) (fl : flags) : M session () :=
  st (Title "📈 Adani Ports Stock Market Dashboard");;
  when (show_eda fl) eda_section;;
  when (show_visuals fl) visuals_section;;
  when (show_metrics fl) (metrics_section L).

(** The script from [if uploaded_file:] on.  [uploaded_file] is the frame
    that [pd.read_csv] makes of the upload, if there is one.  An exception
    that nothing catches ends the run, and streamlit shows it. *)
Definition script (L : library) (uploaded_file : option DataFrame) (fl : flags)
  : list element :=
  match uploaded_file with
  | Some file =>
      match load_data L file with
      | Ok d =>
          let '(r, s) := render L fl {| df := d; page := [] |} in
          page s ++ match r with Ok _ => [] | Raise e => [Exception e] end
      | Raise e => [Exception e]
      end
  | None => [Warning "📂 Please upload a CSV file to begin."]
  end.

(** ** Notions the properties are stated with *)

(** The [p]-th percentile of [xs] by nearest rank: the value of rank
    [ceil (p * n / 100)] among the [n] sorted values. *)
Definition percentile (p : nat) (xs : list Qc) : option Qc :=
  merge_sort Qcle xs !! ((p * length xs + 99) / 100 - 1).

(** The sum of the cells [xs[lo], ..., xs[lo + len - 1]]; there is none
    when one of them is absent or is not a number. *)
Fixpoint range_sum (xs : list cell) (lo len : nat) : cell :=
  match len with
  | 0 => Some 0%Qc
  | S len' =>
      x ← xs !! lo ≫= id;
      s ← range_sum xs (S lo) len';
      Some (x + s)%Qc
  end.

(** The arithmetic mean of the same cells. *)
Definition range_mean (xs : list cell) (lo len : nat) : cell :=
  (λ s, s / natQc len)%Qc <$> range_sum xs lo len.

(** What [pd.read_csv] guarantees of the frame it returns. *)
Definition wf_frame (d : DataFrame) : Prop :=
  NoDup (index d) ∧ NoDup (columns d).*1
  ∧ Forall (λ kc, col_length kc.2 = nrows d) (columns d).

(** The elements that only the page sections produce. *)
Definition rendered (e : element) : bool :=
  match e with
  | Exception _ | Warning _ => false
  | _ => true
  end.

(** ** Frames and a library to run the script on *)

Definition nums (zs : list Z) : list cell := (λ z, Some (ZQc z)) <$> zs.

(** A frame as [pd.read_csv] returns it for a file with the eight columns. *)
Definition price_frame (date : list (option string))
    (open high low close volume trades vwap : list cell) : DataFrame :=
  {| index := seq 0 (length date);
     columns := [("Date", Object date); ("Open", Numeric open);
                 ("High", Numeric high); ("Low", Numeric low);
                 ("Close", Numeric close); ("Volume", Numeric volume);
                 ("Trades", Numeric trades); ("VWAP", Numeric vwap)] |}.

(** [del df[name]] *)
Definition without (name : string) (d : DataFrame) : DataFrame :=
  {| index := index d;
     columns := filter (λ kc, kc.1 ≠ name) (columns d) |}.

(** A library for the examples: every text that is not empty reads as the
    same day, and the root is taken on the integers, to six decimals. *)
Definition example_library : library :=
  {| parse_datetime := λ s,
       if decide (s = EmptyString) then None
       else Some {| year := 2021; month := 3; day := 15; time_ns := 0 |};
     epoch_datetime := λ _, None;
     pct_change_pad := true;
     sqrt := λ q,
       Q2Qc (Z.sqrt (Qnum q * Zpos (Qden q) * 1000000000000)
             # (Qden q * 1000000)) |}.

Definition a_day : option string := Some "2021-03-15".

(** Five rows, the third without [Trades]. *)
Definition five_rows : DataFrame :=
  price_frame (replicate 5 a_day)
    (nums [10; 11; 12; 13; 14]%Z) (nums [12; 13; 14; 15; 16]%Z)
    (nums [9; 10; 11; 12; 13]%Z) (nums [10; 12; 9; 15; 18]%Z)
    (nums [100; 400; 300; 200; 900]%Z)
    [Some (ZQc 7); Some (ZQc 8); None; Some (ZQc 5); Some (ZQc 6)]
    (nums [10; 11; 12; 13; 14]%Z).

(** Sixty rows with [Close] at 100 throughout. *)
Definition flat_sixty : DataFrame :=
  price_frame (replicate 60 a_day)
    (replicate 60 (Some (ZQc 100))) (replicate 60 (Some (ZQc 101)))
    (replicate 60 (Some (ZQc 99))) (replicate 60 (Some (ZQc 100)))
    (nums (Z.of_nat <$> seq 1000 60)) (replicate 60 (Some (ZQc 1)))
    (replicate 60 (Some (ZQc 100))).

(** Two hundred rows; the volume of row 57 is a thousand times the others. *)
Definition outlier_volume : list cell :=
  <[57 := Some (ZQc 1100000)]> (nums (Z.of_nat <$> seq 1000 200)).
Definition outlier_two_hundred : DataFrame :=
  price_frame (replicate 200 a_day)
    (replicate 200 (Some (ZQc 100))) (replicate 200 (Some (ZQc 101)))
    (replicate 200 (Some (ZQc 99))) (replicate 200 (Some (ZQc 100)))
    outlier_volume (replicate 200 (Some (ZQc 1)))
    (replicate 200 (Some (ZQc 100))).

Definition all_sections : flags :=
  {| show_eda := true; show_visuals := true; show_metrics := true |}.



(** Three rows, the second with a date that cannot be read. *)
Definition bad_date_rows : DataFrame :=
  price_frame [a_day; Some EmptyString; a_day]
    (nums [10; 11; 12]%Z) (nums [12; 13; 14]%Z) (nums [9; 10; 11]%Z)
    (nums [10; 12; 9]%Z) (nums [100; 400; 300]%Z) (nums [7; 8; 9]%Z)
    (nums [10; 11; 12]%Z).

(** [x] brought into [lo .. hi]. *)
Definition clamp (lo hi x : Qc) : Qc :=
  if decide (x < lo)%Qc then lo else if decide (hi < x)%Qc then hi else x.

(** The library with another default for [fill_method]. *)
Definition with_pad (pad : bool) (L : library) : library :=
  {| parse_datetime := parse_datetime L;
     epoch_datetime := epoch_datetime L;
     pct_change_pad := pad;
     sqrt := sqrt L |}.

(** On the table [d], the statement [m] goes through, returns [a], leaves
    [d] as it is and adds the elements [out] to the page. *)
Definition emits {A} (d : DataFrame) (m : M session A) (a : A)
    (out : list element) : Prop :=
  ∀ pg, m {| df := d; page := pg |} = (Ok a, {| df := d; page := pg ++ out |}).

(** On the table [d], the statement [m] raises [e] after it has added the
    elements [out] to the page, and leaves [d] as it is. *)
Definition stops {A} (d : DataFrame) (m : M session A) (e : exn)
    (out : list element) : Prop :=
  ∀ pg, m {| df := d; page := pg |} = (Raise e, {| df := d; page := pg ++ out |}).


(** The first element of every page. *)
Definition title : element := Title "📈 Adani Ports Stock Market Dashboard".


(** ** The table of a load that went through, written out *)

Definition month_cell (d : option datetime) : cell := (λ t, ZQc (month t)) <$> d.

(** The frame [load_data] returns, from the columns it read: the rows of
    [mask] are kept, [date] is the parsed [Date], [volume] the clipped
    [Volume]. *)
Definition enriched (L : library) (file : DataFrame) (mask : list bool)
    (date : list (option datetime)) (volume close high low : list cell)
  : DataFrame :=
  let ret := pct_change (pct_change_pad L) close in
  {| index := keep mask (index file);
     columns :=
       alist_set "Month" (Numeric (month_cell <$> keep mask date))
       (alist_set "Rolling_Mean_20" (Numeric (rolling_mean 20 ret))
       (alist_set "Rolling_Volatility_20" (Numeric (rolling_std L 20 ret))
       (alist_set "High_Low_Difference" (Numeric (zip_with cell_sub high low))
       (alist_set "Volume_Change" (Numeric (pct_change (pct_change_pad L) volume))
       (alist_set "MA50" (Numeric (rolling_mean 50 close))
       (alist_set "MA20" (Numeric (rolling_mean 20 close))
       (alist_set "MA5" (Numeric (rolling_mean 5 close))
       (alist_set "Daily_Return" (Numeric ret)
       (alist_set "Volume" (Numeric volume)
       (prod_map id (col_keep mask)
          <$> alist_set "Date" (Datetime date) (columns file))))))))))) |}.

(** The rows that [dropna(subset=['Trades'])] keeps. *)
Definition kept_rows (file : DataFrame) : list bool := notna_rows ["Trades"] file.

(** The columns the file is expected to have. *)
Definition required_columns : list string :=
  ["Date"; "Open"; "High"; "Low"; "Close"; "Volume"; "Trades"; "VWAP"].

(** The columns [load_data] writes. *)
Definition columns_written : list string :=
  ["Date"; "Volume"; "Daily_Return"; "MA5"; "MA20"; "MA50"; "Volume_Change";
   "High_Low_Difference"; "Rolling_Volatility_20"; "Rolling_Mean_20"; "Month"].

(** The columns [load_data] reads. *)
Definition columns_read : list string :=
  ["Date"; "Trades"; "Volume"; "Close"; "High"; "Low"].

(** ** Predicates on statements *)

(** The statement [m] goes through on the store [s], returns [a] and
    leaves the store [s']. *)
Definition runs {S A} (m : M S A) (s : S) (a : A) (s' : S) : Prop :=
  m s = (Ok a, s').

(** A frame operation that leaves the frame as it is. *)
Definition reads {A} (m : M DataFrame A) : Prop := ∀ d, (m d).2 = d.

(** A statement of the script that leaves [df] as it is. *)
Definition keeps_frame {A} (m : M session A) : Prop := ∀ s, df (m s).2 = df s.

(** * Properties *)

(** ** Running a statement *)

Lemma runs_bind_inv {S A B} (m : M S A) (k : A → M S B) s b s2 :
  runs (m ≫= k) s b s2 → ∃ a s1, runs m s a s1 ∧ runs (k a) s1 b s2.
Proof.
  unfold runs, mbind, M_bind.
  destruct (m s) as [[a|e] s1]; [eauto | discriminate].
Qed.

Lemma runs_lift_inv {S A} (r : result A) (s : S) a s' :
  runs (lift r) s a s' → r = Ok a ∧ s' = s.
Proof. unfold runs, lift. by intros [= -> ->]. Qed.

Lemma runs_getitem_inv name d c d' :
  runs (getitem name) d c d' → column_of name d = Some c ∧ d' = d.
Proof.
  unfold runs, getitem, column_of.
  destruct (alist_lookup _ _); by intros [= -> ->].
Qed.

Lemma runs_setitem_inv name c d u d' :
  runs (setitem name c) d u d' →
  col_length c = nrows d
  ∧ d' = {| index := index d; columns := alist_set name c (columns d) |}.
Proof. unfold runs, setitem. case_decide; by intros [= <-]. Qed.

Lemma zip_with_andb_true l n : zip_with andb l (replicate n true) = take n l.
Proof.
  revert n. induction l as [|b l IH]; intros [|n]; simpl; try done.
  by rewrite IH, andb_true_r.
Qed.

Lemma runs_dropna1_inv name d u d' :
  runs (dropna [name]) d u d' →
  ∃ c, column_of name d = Some c
     ∧ d' = {| index := keep (take (nrows d) (col_notna c)) (index d);
               columns := prod_map id (col_keep (take (nrows d) (col_notna c)))
                            <$> columns d |}.
Proof.
  unfold runs, dropna, missing_names, notna_rows, column_of.
  rewrite filter_cons, filter_nil. simpl.
  destruct (alist_lookup name (columns d)) as [c|] eqn:E.
  - rewrite decide_False by done. simpl. rewrite zip_with_andb_true.
    intros [= H]. subst d'. by exists c.
  - by rewrite decide_True by done.
Qed.

Ltac run_inv :=
  repeat match goal with
  | H : runs (_ ≫= _) _ _ _ |- _ => apply runs_bind_inv in H as (? & ? & ? & H)
  | H : runs (lift _) _ _ _ |- _ => apply runs_lift_inv in H as [? ->]
  | H : runs (getitem _) _ _ _ |- _ => apply runs_getitem_inv in H as [? ->]
  | H : runs (setitem _ _) _ _ _ |- _ => apply runs_setitem_inv in H as [? ->]
  | H : runs (dropna [_]) _ _ _ |- _ => apply runs_dropna1_inv in H as (? & ? & ->)
  end.

(** ** Columns by name *)

Lemma alist_lookup_set name k c cols :
  alist_lookup name (alist_set k c cols)
  = if decide (k = name) then Some c else alist_lookup name cols.
Proof.
  induction cols as [|[k' c'] cols IH]; simpl.
  - by case_decide.
  - destruct (decide (k' = k)) as [->|Hk]; simpl.
    + by case_decide.
    + destruct (decide (k' = name)) as [->|]; [by rewrite decide_False|done].
Qed.

Lemma alist_lookup_fmap name (f : column → column) cols :
  alist_lookup name (prod_map id f <$> cols) = f <$> alist_lookup name cols.
Proof.
  induction cols as [|[k c] cols IH]; simpl; [done|]. by case_decide.
Qed.

Lemma numeric_inv c xs : numeric c = Ok xs → c = Numeric xs.
Proof. destruct c; by intros [= ->]. Qed.

Lemma numeric_keep_inv mask c xs :
  numeric (col_keep mask c) = Ok xs → ∃ raw, c = Numeric raw ∧ xs = keep mask raw.
Proof. destruct c; simpl; intros [= <-]. eauto. Qed.

Ltac col_simpl :=
  unfold column_of, nrows in *; cbn [index columns] in *;
  repeat first
    [ rewrite alist_lookup_set in *
    | rewrite alist_lookup_fmap in *
    | match goal with
      | H : context [decide (?a = ?b)] |- _ =>
          first [ rewrite (decide_False (P := a = b)) in H by done
                | rewrite (decide_True (P := a = b)) in H by done ]
      | |- context [decide (?a = ?b)] =>
          first [ rewrite (decide_False (P := a = b)) by done
                | rewrite (decide_True (P := a = b)) by done ]
      end ].

Lemma fmap_keep_inv mask (o : option column) c xs :
  col_keep mask <$> o = Some c → numeric c = Ok xs →
  ∃ raw, o = Some (Numeric raw) ∧ xs = keep mask raw.
Proof.
  destruct o as [c'|]; [|done]. intros [= <-] (raw & -> & ->)%numeric_keep_inv.
  eauto.
Qed.



(** ** The kept rows *)

Lemma keep_length_le {A} mask (xs : list A) : length (keep mask xs) ≤ length xs.
Proof.
  revert xs. induction mask as [|[] mask IH]; intros [|x xs]; simpl;
    try specialize (IH xs); lia.
Qed.

Lemma keep_take_length {A} mask (xs : list A) :
  keep (take (length xs) mask) xs = keep mask xs.
Proof.
  revert xs. induction mask as [|b mask IH]; intros [|x xs]; simpl; try done.
  by rewrite IH.
Qed.

Lemma keep_all {A} n (xs : list A) :
  length xs ≤ n → keep (replicate n true) xs = xs.
Proof.
  revert xs. induction n as [|n IH]; intros [|x xs] ?; simpl in *; try done; try lia.
  rewrite IH; [done|lia].
Qed.

Lemma keep_sublist {A} mask (xs : list A) : sublist (keep mask xs) xs.
Proof.
  revert xs. induction mask as [|[] mask IH]; intros [|x xs]; simpl;
    try constructor; try done; apply sublist_nil_l.
Qed.

(** A row is kept exactly when its mask holds. *)
Lemma elem_of_keep {A} mask (xs : list A) x :
  x ∈ keep mask xs ↔ ∃ i, mask !! i = Some true ∧ xs !! i = Some x.
Proof.
  revert xs. induction mask as [|b mask IH]; intros [|y xs]; simpl.
  - split; [by intros ?%elem_of_nil|by intros (i & ? & ?)].
  - split; [by intros ?%elem_of_nil|by intros (i & ? & ?)].
  - split; [by intros ?%elem_of_nil|by intros (i & ? & ?)].
  - destruct b.
    + rewrite elem_of_cons, IH. split.
      * intros [->|(i & ? & ?)]; [by exists 0|by exists (S i)].
      * intros ([|i] & ? & ?); simplify_eq/=; eauto.
    + rewrite IH. split.
      * intros (i & ? & ?). by exists (S i).
      * intros ([|i] & ? & ?); simplify_eq/=; eauto.
Qed.

(** ** The columns of the enriched table *)

Section enriched_columns.
Context (L : library) (file : DataFrame) (mask : list bool).
Context (date : list (option datetime)) (volume close high low : list cell).
Let out := enriched L file mask date volume close high low.
Let ret := pct_change (pct_change_pad L) close.

Lemma enriched_index : index out = keep mask (index file).
Proof. done. Qed.

Lemma enriched_Volume : column_of "Volume" out = Some (Numeric volume).
Proof. unfold out, enriched. by col_simpl. Qed.

Lemma enriched_Daily_Return : column_of "Daily_Return" out = Some (Numeric ret).
Proof. unfold out, enriched. by col_simpl. Qed.

Lemma enriched_MA5 : column_of "MA5" out = Some (Numeric (rolling_mean 5 close)).
Proof. unfold out, enriched. by col_simpl. Qed.

Lemma enriched_MA20 : column_of "MA20" out = Some (Numeric (rolling_mean 20 close)).
Proof. unfold out, enriched. by col_simpl. Qed.

Lemma enriched_MA50 : column_of "MA50" out = Some (Numeric (rolling_mean 50 close)).
Proof. unfold out, enriched. by col_simpl. Qed.

Lemma enriched_Volume_Change :
  column_of "Volume_Change" out
  = Some (Numeric (pct_change (pct_change_pad L) volume)).
Proof. unfold out, enriched. by col_simpl. Qed.

Lemma enriched_Rolling_Volatility_20 :
  column_of "Rolling_Volatility_20" out = Some (Numeric (rolling_std L 20 ret)).
Proof. unfold out, enriched. by col_simpl. Qed.

Lemma enriched_Rolling_Mean_20 :
  column_of "Rolling_Mean_20" out = Some (Numeric (rolling_mean 20 ret)).
Proof. unfold out, enriched. by col_simpl. Qed.

Lemma enriched_Close raw_close :
  column_of "Close" file = Some (Numeric raw_close) →
  close = keep mask raw_close →
  column_of "Close" out = Some (Numeric close).
Proof. intros H ->. unfold out, enriched. col_simpl. by rewrite H. Qed.

(** A column that the pipeline does not write keeps its name and the
    kept rows of its cells. *)
Lemma enriched_other name :
  name ∉ columns_written →
  column_of name out = col_keep mask <$> column_of name file.
Proof.
  intros Hn. unfold out, enriched, column_of. cbn [columns].
  rewrite !alist_lookup_set, alist_lookup_fmap, alist_lookup_set.
  repeat (rewrite decide_False; [|intros <-; apply Hn; repeat constructor]).
  done.
Qed.
End enriched_columns.

(** ** Fractional change *)

Lemma shift_length xs : length (shift xs) = length xs.
Proof. unfold shift. rewrite length_take_le; [done|]. simpl. lia. Qed.

Lemma shift_lookup_S xs i :
  S i < length xs → shift xs !! S i = xs !! i.
Proof. intros. unfold shift. by rewrite lookup_take_lt by done. Qed.

Lemma shift_lookup_0 xs : xs ≠ [] → shift xs !! 0 = Some None.
Proof. by destruct xs. Qed.

Lemma ffill_from_length last xs : length (ffill_from last xs) = length xs.
Proof. revert last. induction xs as [|x xs IH]; intros; simpl; [done|by rewrite IH]. Qed.

(** Forward filling leaves the cells that hold a number as they are. *)
Lemma ffill_from_lookup_Some last xs i a :
  xs !! i = Some (Some a) → ffill_from last xs !! i = Some (Some a).
Proof.
  revert last i. induction xs as [|x xs IH]; intros last [|i] H; simplify_eq/=; eauto.
Qed.

Lemma pct_change_length pad xs : length (pct_change pad xs) = length xs.
Proof.
  unfold pct_change. rewrite length_zip_with, shift_length.
  destruct pad; unfold ffill; rewrite ?ffill_from_length; lia.
Qed.

Lemma pct_change_lookup_0 pad xs : xs ≠ [] → pct_change pad xs !! 0 = Some None.
Proof.
  intros Hxs. unfold pct_change.
  set (data := if pad then ffill xs else xs).
  assert (data ≠ []) as Hd by (subst data; destruct pad, xs; done).
  rewrite lookup_zip_with, (shift_lookup_0 _ Hd).
  destruct data as [|[x|] data]; done.
Qed.

Lemma pct_change_lookup_S pad xs i a b :
  xs !! i = Some (Some a) → xs !! S i = Some (Some b) → a ≠ 0%Qc →
  pct_change pad xs !! S i = Some (Some (b / a - 1)%Qc).
Proof.
  intros Ha Hb Hne. unfold pct_change.
  set (data := if pad then ffill xs else xs).
  assert (data !! i = Some (Some a) ∧ data !! S i = Some (Some b)) as [Ha' Hb'].
  { subst data. destruct pad; [|done].
    split; by apply ffill_from_lookup_Some. }
  rewrite lookup_zip_with, Hb', shift_lookup_S, Ha'
    by (by eapply lookup_lt_Some).
  simpl. by rewrite decide_False.
Qed.

(** ** Rolling windows *)

Lemma rolling_length w agg xs : length (rolling w agg xs) = length xs.
Proof. unfold rolling. by rewrite length_imap. Qed.

Lemma rolling_lookup w agg xs i :
  i < length xs →
  rolling w agg xs !! i
  = Some (let obs := observations (window w i xs) in
          if decide (length obs < w) then None else agg obs).
Proof.
  intros Hi. unfold rolling. rewrite list_lookup_imap.
  destruct (lookup_lt_is_Some_2 xs i Hi) as [x ->]. done.
Qed.

Lemma observations_cons x xs :
  observations (x :: xs)
  = match x with Some a => a :: observations xs | None => observations xs end.
Proof. by destruct x. Qed.

Lemma observations_length_le xs : length (observations xs) ≤ length xs.
Proof.
  induction xs as [|[x|] xs IH]; rewrite ?observations_cons; simpl; lia.
Qed.

(** A window that starts before the first row has no value. *)
Lemma rolling_lookup_short w agg xs i :
  i < length xs → S i < w → rolling w agg xs !! i = Some None.
Proof.
  intros Hi Hw. rewrite rolling_lookup by done. simpl.
  rewrite decide_True; [done|].
  pose proof (observations_length_le (window w i xs)) as Hle.
  unfold window in *. rewrite length_drop, length_take_le in Hle by lia. lia.
Qed.

Lemma window_full w i xs :
  w ≤ S i → i < length xs → window w i xs = take w (drop (S i - w) xs).
Proof.
  intros Hw Hi. unfold window. rewrite take_drop_commute.
  do 2 f_equal. lia.
Qed.

(** The cells of a range, when all of them are numbers. *)
Lemma range_sum_spec xs lo len :
  lo + len ≤ length xs →
  range_sum xs lo len = sumQc <$> mapM id (take len (drop lo xs)).
Proof.
  revert lo. induction len as [|len IH]; intros lo Hlen; simpl; [done|].
  destruct (lookup_lt_is_Some_2 xs lo) as [x Hx]; [lia|].
  rewrite (drop_S _ _ _ Hx). simpl. rewrite Hx. simpl.
  rewrite IH by lia.
  destruct x as [x|]; simpl; [|done].
  destruct (mapM id (take len (drop (S lo) xs))); done.
Qed.

Lemma mapM_id_cons (x : cell) win :
  mapM id (x :: win) = a ← x; ys ← mapM id win; Some (a :: ys).
Proof. done. Qed.

Lemma observations_all win ys :
  mapM id win = Some ys → observations win = ys ∧ length ys = length win.
Proof.
  revert ys. induction win as [|[x|] win IH]; intros ys;
    rewrite ?mapM_id_cons, ?observations_cons; simpl.
  - by intros [= <-].
  - destruct (mapM id win) as [zs|]; simpl; [|done].
    intros [= <-]. destruct (IH _ eq_refl) as [-> E]. simpl. by rewrite E.
  - done.
Qed.

Lemma observations_missing win :
  mapM id win = None → length (observations win) < length win.
Proof.
  induction win as [|[x|] win IH];
    rewrite ?mapM_id_cons, ?observations_cons; simpl.
  - done.
  - destruct (mapM id win) as [zs|]; simpl; [done|].
    intros _. specialize (IH eq_refl). lia.
  - intros _. pose proof (observations_length_le win). lia.
Qed.

(** From row [w - 1] on, the rolling mean is the mean of the [w] cells
    that end at the row. *)
Lemma rolling_mean_lookup_full w xs i :
  0 < w → w ≤ S i → i < length xs →
  rolling_mean w xs !! i = Some (range_mean xs (S i - w) w).
Proof.
  intros Hw0 Hw Hi. unfold rolling_mean, range_mean.
  rewrite rolling_lookup, window_full, range_sum_spec by lia. simpl.
  assert (length (take w (drop (S i - w) xs)) = w) as Hlen.
  { rewrite length_take_le; [done|]. rewrite length_drop. lia. }
  destruct (mapM id _) as [ys|] eqn:E; simpl.
  - apply observations_all in E as [-> Hys]. rewrite Hlen in Hys.
    rewrite decide_False by lia. unfold mean.
    destruct ys; simpl in *; [lia|]. by rewrite Hys.
  - apply observations_missing in E. rewrite Hlen in E.
    by rewrite decide_True.
Qed.

(** ** What a load that goes through has done *)

Lemma kept_rows_eq file trades :
  column_of "Trades" file = Some trades →
  kept_rows file = take (nrows file) (col_notna trades).
Proof.
  unfold kept_rows, notna_rows, column_of. simpl. intros ->. simpl.
  apply zip_with_andb_true.
Qed.

(** A load that goes through has read its six columns, and returns the
    enriched table. *)
Lemma load_data_inv L file out :
  load_data L file = Ok out →
  ∃ raw_date date trades raw_volume raw_close raw_high raw_low volume,
    let mask := kept_rows file in
    column_of "Date" file = Some raw_date
    ∧ to_datetime L raw_date = Ok date
    ∧ column_of "Trades" file = Some trades
    ∧ column_of "Volume" file = Some (Numeric raw_volume)
    ∧ column_of "Close" file = Some (Numeric raw_close)
    ∧ column_of "High" file = Some (Numeric raw_high)
    ∧ column_of "Low" file = Some (Numeric raw_low)
    ∧ winsorize (keep mask raw_volume) limits = Ok volume
    ∧ length volume = nrows out
    ∧ length (keep mask raw_close) = nrows out
    ∧ out = enriched L file mask date volume (keep mask raw_close)
              (keep mask raw_high) (keep mask raw_low).
Proof.
  unfold load_data.
  destruct (load_data_body L file) as [[[]|e] d] eqn:E; [|discriminate].
  intros [= ->]. change (runs (load_data_body L) file () out) in E.
  unfold load_data_body in E. run_inv. col_simpl.
  repeat match goal with
  | H : _ <$> _ = Some ?c, H' : numeric ?c = Ok _ |- _ =>
      destruct (fmap_keep_inv _ _ _ _ H H') as (? & ? & ?); clear H H'
  | H : Some _ = Some _ |- _ => injection H as <-
  | H : numeric (Numeric _) = Ok _ |- _ => injection H as <-
  end.
  repeat match goal with
  | H : _ <$> Some _ = Some _ |- _ => simpl in H; injection H as <-
  | H : dt_month _ = Ok _ |- _ => simpl in H; injection H as <-
  end.
  simplify_eq. cbn [col_length] in *.
  match goal with
  | H : alist_lookup "Trades" _ = Some ?t |- _ =>
      pose proof (kept_rows_eq file t H) as Hmask
  end.
  unfold nrows in Hmask. rewrite <- Hmask in *.
  match goal with
  | H : length (pct_change _ (keep _ _)) = _ |- _ =>
      rewrite pct_change_length in H
  end.
  eexists _, _, _, _, _, _, _, _. repeat split; eauto.
Qed.

(** ** The order of the cells *)

#[global] Instance cell_le_refl : Reflexive cell_le.
Proof. intros [a|]; simpl; [reflexivity|done]. Qed.

#[global] Instance cell_le_trans : Transitive cell_le.
Proof. intros [a|] [b|] [c|]; simpl; try done. apply Qcle_trans. Qed.

#[global] Instance cell_le_total : Total cell_le.
Proof. intros [a|] [b|]; simpl; auto. apply Qc_le_total. Qed.

#[global] Instance cell_le_antisymm : AntiSymm (=) cell_le.
Proof.
  intros [a|] [b|]; simpl; try done. intros. f_equal. by apply Qcle_antisym.
Qed.

#[global] Instance key_le_trans : Transitive key_le.
Proof. intros p q r. unfold key_le. apply cell_le_trans. Qed.

#[global] Instance key_le_total : Total key_le.
Proof. intros p q. unfold key_le. apply cell_le_total. Qed.

Lemma StronglySorted_lookup_le {A} (R : relation A) `{!Reflexive R} l p q x y :
  StronglySorted R l → p ≤ q → l !! p = Some x → l !! q = Some y → R x y.
Proof.
  intros Hl. revert p q. induction Hl as [|a l Hl IH Ha]; intros p q Hpq Hp Hq.
  - done.
  - destruct p as [|p], q as [|q]; simplify_eq/=; try lia.
    + done.
    + rewrite Forall_forall in Ha. apply Ha. by eapply list_elem_of_lookup_2.
    + eapply IH; [|done..]. lia.
Qed.

(** ** Sorting positions *)

Section argsort.
Context (a : list cell).
Let pairs := merge_sort key_le (zip a (seq 0 (length a))).

Lemma argsort_Permutation : argsort a ≡ₚ seq 0 (length a).
Proof.
  unfold argsort. rewrite merge_sort_Permutation.
  rewrite snd_zip; [done|]. by rewrite length_seq.
Qed.

Lemma argsort_length : length (argsort a) = length a.
Proof. by rewrite argsort_Permutation, length_seq. Qed.

Lemma argsort_NoDup : NoDup (argsort a).
Proof. rewrite argsort_Permutation. apply NoDup_seq. Qed.

Lemma argsort_lt p i : argsort a !! p = Some i → i < length a.
Proof.
  intros H%list_elem_of_lookup_2. rewrite argsort_Permutation in H.
  apply elem_of_seq in H. lia.
Qed.

(** The cells in sorted order: the cell at each position of [argsort]. *)
Lemma argsort_cell p i :
  argsort a !! p = Some i → ∃ x, a !! i = Some x ∧ pairs.*1 !! p = Some x.
Proof.
  unfold argsort. fold pairs. rewrite !list_lookup_fmap.
  destruct (pairs !! p) as [[x j]|] eqn:E; [|done]. intros [= <-].
  exists x. split; [|done].
  apply list_elem_of_lookup_2 in E. unfold pairs in E.
  rewrite merge_sort_Permutation in E.
  apply list_elem_of_lookup_1 in E as [k Hk].
  apply lookup_zip_Some in Hk as [Hx Hj].
  apply lookup_seq in Hj as [-> _]. done.
Qed.

Lemma sorted_cells_Sorted : Sorted cell_le pairs.*1.
Proof.
  apply (Sorted_fmap _ key_le cell_le); [done|].
  apply Sorted_merge_sort, _.
Qed.

Lemma sorted_cells_Permutation : pairs.*1 ≡ₚ a.
Proof.
  unfold pairs. rewrite merge_sort_Permutation.
  rewrite fst_zip; [done|]. by rewrite length_seq.
Qed.

(** Cells come in increasing order along [argsort]. *)
Lemma argsort_sorted p q i j x y :
  p ≤ q → argsort a !! p = Some i → argsort a !! q = Some j →
  a !! i = Some x → a !! j = Some y → cell_le x y.
Proof.
  intros Hpq (x' & Hx & Hp)%argsort_cell (y' & Hy & Hq)%argsort_cell ??.
  simplify_eq.
  eapply (StronglySorted_lookup_le cell_le); [|done..].
  apply Sorted_StronglySorted; [apply _|apply sorted_cells_Sorted].
Qed.
End argsort.

(** On a column without NaN the sorted cells are the sorted numbers. *)
Lemma argsort_numbers xs p i :
  argsort (Some <$> xs) !! p = Some i → xs !! i = merge_sort Qcle xs !! p
  ∧ is_Some (xs !! i).
Proof.
  intros (x & Hx & Hp)%argsort_cell.
  assert ((merge_sort key_le (zip (Some <$> xs) (seq 0 (length (Some <$> xs))))).*1
          = Some <$> merge_sort Qcle xs) as Heq.
  { apply (Sorted_unique cell_le).
    - apply sorted_cells_Sorted.
    - apply (Sorted_fmap _ Qcle cell_le); [done|]. apply Sorted_merge_sort, _.
    - rewrite sorted_cells_Permutation. by rewrite merge_sort_Permutation. }
  rewrite Heq in Hp. rewrite list_lookup_fmap in Hx, Hp.
  destruct (xs !! i) as [u|]; [|done].
  destruct (merge_sort Qcle xs !! p) as [v|]; [|done].
  simplify_eq/=. eauto.
Qed.

(** ** Indexing *)

Lemma py_index_nat {A} (l : list A) i x :
  l !! i = Some x → py_index l (Z.of_nat i) = Ok x.
Proof.
  intros H. pose proof (lookup_lt_Some _ _ _ H). unfold py_index. cbv zeta.
  rewrite (decide_False (P := (Z.of_nat i < 0)%Z)) by lia.
  rewrite decide_True by lia. by rewrite Nat2Z.id, H.
Qed.

Lemma py_index_empty {A} i : py_index (@nil A) i = Raise IndexError.
Proof.
  unfold py_index. cbv zeta. simpl. by destruct (decide _).
Qed.

Lemma py_slice_to_nat {A} (l : list A) k :
  py_slice_to l (Z.of_nat k) = take k l.
Proof.
  unfold py_slice_to, py_bound.
  rewrite (decide_False (P := (Z.of_nat k < 0)%Z)) by lia. rewrite Nat2Z.id.
  destruct (decide (k ≤ length l)).
  - by rewrite Nat.min_l.
  - rewrite Nat.min_r, !take_ge by lia. done.
Qed.

Lemma py_slice_from_nat {A} (l : list A) k :
  py_slice_from l (Z.of_nat k) = drop k l.
Proof.
  unfold py_slice_from, py_bound.
  rewrite (decide_False (P := (Z.of_nat k < 0)%Z)) by lia. rewrite Nat2Z.id.
  destruct (decide (k ≤ length l)).
  - by rewrite Nat.min_l.
  - rewrite Nat.min_r, !drop_ge by lia. done.
Qed.

Lemma assign_at_length {A} js (v : A) a : length (assign_at js v a) = length a.
Proof.
  unfold assign_at. revert a. induction js as [|j js IH]; intros a; simpl; [done|].
  by rewrite IH, length_insert.
Qed.

(** After [a[js] = v], the positions of [js] hold [v], the others are as
    they were. *)
Lemma assign_at_lookup {A} js (v : A) a i :
  assign_at js v a !! i
  = if decide (i ∈ js) then (λ _, v) <$> a !! i else a !! i.
Proof.
  unfold assign_at. revert a. induction js as [|j js IH]; intros a; cbn [foldl].
  - rewrite decide_False; [done|]. apply not_elem_of_nil.
  - rewrite IH. destruct (decide (i = j)) as [->|Hij].
    + rewrite (decide_True (P := j ∈ j :: js)) by apply list_elem_of_here.
      destruct (decide (j < length a)).
      * rewrite list_lookup_insert_eq by done.
        destruct (lookup_lt_is_Some_2 a j) as [x ->]; [done|].
        by case_decide.
      * rewrite list_insert_ge by lia. rewrite (lookup_ge_None_2 a j) by lia.
        by case_decide.
    + rewrite list_lookup_insert_ne by done.
      destruct (decide (i ∈ js)).
      * by rewrite decide_True by by apply list_elem_of_further.
      * rewrite decide_False; [done|]. rewrite elem_of_cons. tauto.
Qed.

(** ** The two ranks of the clipping *)

Lemma int_hundredth n : int (hundredth * natQc n) = Z.of_nat (n / 100).
Proof.
  unfold int, hundredth, natQc, ZQc.
  change (Qfloor (Qred (Qred (1 # 100) * Qred (inject_Z (Z.of_nat n))))
          = Z.of_nat (n / 100)).
  rewrite !Qred_correct. unfold Qfloor, Qmult, inject_Z.
  cbn [Qnum Qden]. rewrite Z.mul_1_l, Pos.mul_1_r.
  by rewrite Nat2Z.inj_div.
Qed.

Lemma int_hundredth_r n : int (natQc n * hundredth) = Z.of_nat (n / 100).
Proof. by rewrite Qcmult_comm, int_hundredth. Qed.

Lemma hundredth_ok : limit_ok (Some hundredth) = true.
Proof. by vm_compute. Qed.

Lemma hundredth_ne_0 : hundredth ≠ 0%Qc.
Proof. by intros [=]. Qed.

(** [winsorize] with the limits of the pipeline, on a column that is not
    empty: the [k] smallest cells take the value of rank [k], the [k]
    greatest the value of rank [n - k - 1], for [k = n / 100]. *)
Lemma winsorize_run a :
  a ≠ [] →
  let n := length a in
  let k := n / 100 in
  ∃ jl jh lo hi,
    argsort a !! k = Some jl ∧ a !! jl = Some lo
    ∧ argsort a !! (n - k - 1) = Some jh ∧ a !! jh = Some hi
    ∧ winsorize a limits
      = Ok (assign_at (drop (n - k) (argsort a)) hi
              (assign_at (take k (argsort a)) lo a)).
Proof.
  intros Ha n k.
  assert (0 < n) as Hn by (subst n; destruct a; simpl; [done|lia]).
  assert (2 * k + 1 ≤ n) as Hk.
  { subst k. pose proof (Nat.div_mod_eq n 100). lia. }
  destruct (lookup_lt_is_Some_2 (argsort a) k) as [jl Hjl];
    [rewrite argsort_length; lia|].
  destruct (lookup_lt_is_Some_2 (argsort a) (n - k - 1)) as [jh Hjh];
    [rewrite argsort_length; lia|].
  destruct (lookup_lt_is_Some_2 a jl) as [lo Hlo]; [by eapply argsort_lt|].
  destruct (lookup_lt_is_Some_2 a jh) as [hi Hhi]; [by eapply argsort_lt|].
  exists jl, jh, lo, hi. repeat split; try done.
  unfold winsorize, limits. rewrite hundredth_ok. simpl.
  unfold winsorize1D. rewrite (decide_False (P := hundredth = 0%Qc))
    by apply hundredth_ne_0.
  rewrite int_hundredth, int_hundredth_r. fold n k.
  rewrite (py_index_nat _ _ _ Hjl). simpl.
  rewrite (py_index_nat _ _ _ Hlo). simpl.
  rewrite py_slice_to_nat.
  replace (Z.of_nat n - Z.of_nat k - 1)%Z with (Z.of_nat (n - k - 1)) by lia.
  replace (Z.of_nat n - Z.of_nat k)%Z with (Z.of_nat (n - k)) by lia.
  rewrite (py_index_nat _ _ _ Hjh). simpl.
  rewrite py_slice_from_nat.
  assert (assign_at (take k (argsort a)) lo a !! jh = Some hi) as Hhi'.
  { rewrite assign_at_lookup, decide_False; [done|].
    intros (p & Hp & Hlt)%elem_of_take.
    pose proof (NoDup_lookup _ _ _ _ (argsort_NoDup a) Hp Hjh). lia. }
  rewrite (py_index_nat _ _ _ Hhi'). done.
Qed.

Lemma winsorize_nonempty a out : winsorize a limits = Ok out → a ≠ [].
Proof. intros H ->. vm_compute in H. discriminate. Qed.

Lemma winsorize_length a out : winsorize a limits = Ok out → length out = length a.
Proof.
  intros H. destruct (winsorize_run a) as (jl & jh & lo & hi & _ & _ & _ & _ & E);
    [by eapply winsorize_nonempty|].
  rewrite E in H. injection H as <-. by rewrite !assign_at_length.
Qed.

(** The cell of every row after the clipping, by the rank [p] of the row. *)
Lemma winsorize_lookup a out :
  winsorize a limits = Ok out →
  let n := length a in
  let k := n / 100 in
  ∃ jl jh lo hi,
    argsort a !! k = Some jl ∧ a !! jl = Some lo
    ∧ argsort a !! (n - k - 1) = Some jh ∧ a !! jh = Some hi
    ∧ ∀ p i x, argsort a !! p = Some i → a !! i = Some x →
        out !! i = Some (if decide (p < k) then lo
                         else if decide (n - k ≤ p) then hi else x).
Proof.
  intros H n k.
  destruct (winsorize_run a) as (jl & jh & lo & hi & Hjl & Hlo & Hjh & Hhi & E);
    [by eapply winsorize_nonempty|].
  fold n k in Hjl, Hjh, E. rewrite E in H. injection H as <-.
  exists jl, jh, lo, hi. repeat split; try done.
  intros p i x Hp Hx.
  assert (p < n) as Hpn.
  { apply lookup_lt_Some in Hp. by rewrite argsort_length in Hp. }
  assert (2 * k + 1 ≤ n) as Hk.
  { subst k. pose proof (Nat.div_mod_eq n 100). lia. }
  assert (i ∈ take k (argsort a) ↔ p < k) as Htake.
  { rewrite elem_of_take. split.
    - intros (q & Hq & ?).
      by rewrite (NoDup_lookup _ _ _ _ (argsort_NoDup a) Hp Hq).
    - eauto. }
  assert (i ∈ drop (n - k) (argsort a) ↔ n - k ≤ p) as Hdrop.
  { rewrite list_elem_of_lookup. setoid_rewrite lookup_drop. split.
    - intros (q & Hq).
      rewrite (NoDup_lookup _ _ _ _ (argsort_NoDup a) Hp Hq). lia.
    - intros ?. exists (p - (n - k)).
      by replace (n - k + (p - (n - k))) with p by lia. }
  rewrite !assign_at_lookup, Hx. simpl.
  destruct (decide (p < k)).
  - rewrite (decide_False (P := i ∈ drop _ _)) by (rewrite Hdrop; lia).
    by rewrite decide_True by by apply Htake.
  - rewrite (decide_False (P := i ∈ take _ _)) by by rewrite Htake.
    destruct (decide (n - k ≤ p)).
    + by rewrite decide_True by by apply Hdrop.
    + by rewrite decide_False by by rewrite Hdrop.
Qed.

(** Every row has a rank. *)
Lemma argsort_rank a i : i < length a → ∃ p, argsort a !! p = Some i.
Proof.
  intros Hi. apply list_elem_of_lookup_1. rewrite argsort_Permutation.
  apply elem_of_seq. lia.
Qed.

(** With fewer than a hundred rows, no row is cut on either side. *)
Lemma winsorize_small a :
  a ≠ [] → length a < 100 → winsorize a limits = Ok a.
Proof.
  intros Ha Hn.
  destruct (winsorize_run a Ha) as (jl & jh & lo & hi & _ & _ & _ & _ & ->).
  rewrite Nat.div_small by done.
  rewrite Nat.sub_0_r, drop_ge by (by rewrite argsort_length). done.
Qed.

Lemma percentile_rank_99 n : 0 < n → (99 * n + 99) / 100 - 1 = n - n / 100 - 1.
Proof.
  intros. pose proof (Nat.div_mod_eq n 100).
  pose proof (Nat.mod_upper_bound n 100).
  pose proof (Nat.div_mod_eq (99 * n + 99) 100).
  pose proof (Nat.mod_upper_bound (99 * n + 99) 100). lia.
Qed.

Lemma percentile_rank_1 n : (1 * n + 99) / 100 - 1 ≤ n / 100.
Proof.
  pose proof (Nat.div_mod_eq n 100).
  pose proof (Nat.mod_upper_bound n 100).
  pose proof (Nat.div_mod_eq (1 * n + 99) 100).
  pose proof (Nat.mod_upper_bound (1 * n + 99) 100). lia.
Qed.

(** On a column of numbers: every cell after the clipping is a number
    between the 1st and the 99th percentile of the column before it, and
    the [n / 100] greatest are at the 99th percentile. *)
Lemma winsorize_percentiles xs out :
  winsorize (Some <$> xs) limits = Ok out →
  ∃ p1 p99,
    percentile 1 xs = Some p1 ∧ percentile 99 xs = Some p99
    ∧ (∀ i c, out !! i = Some c → ∃ y, c = Some y ∧ (p1 ≤ y)%Qc ∧ (y ≤ p99)%Qc)
    ∧ (∀ p i, argsort (Some <$> xs) !! p = Some i →
         length xs - length xs / 100 ≤ p → out !! i = Some (Some p99)).
Proof.
  intros H. pose proof (winsorize_length _ _ H) as Hlen.
  pose proof (winsorize_nonempty _ _ H) as Hne.
  destruct (winsorize_lookup _ _ H) as (jl & jh & lo & hi & Hjl & Hlo & Hjh & Hhi & Hout).
  rewrite length_fmap in *.
  set (n := length xs) in *. set (k := n / 100) in *.
  set (s := merge_sort Qcle xs).
  assert (0 < n) as Hn by (subst n; destruct xs; simpl; [done|lia]).
  assert (2 * k + 1 ≤ n) as Hk.
  { subst k. pose proof (Nat.div_mod_eq n 100). lia. }
  assert (StronglySorted Qcle s) as Hs.
  { apply Sorted_StronglySorted; [apply _|]. apply Sorted_merge_sort, _. }
  assert (length s = n) as Hsn by (subst s; by rewrite merge_sort_Permutation).
  destruct (argsort_numbers _ _ _ Hjl) as [Elo [vlo Hvlo]].
  destruct (argsort_numbers _ _ _ Hjh) as [Ehi [vhi Hvhi]].
  rewrite list_lookup_fmap, Hvlo in Hlo. rewrite list_lookup_fmap, Hvhi in Hhi.
  simpl in Hlo, Hhi. injection Hlo as <-. injection Hhi as <-.
  fold s in Elo, Ehi. rewrite Hvlo in Elo. rewrite Hvhi in Ehi.
  destruct (lookup_lt_is_Some_2 s ((1 * n + 99) / 100 - 1)) as [p1 Hp1].
  { pose proof (percentile_rank_1 n). fold k in H0. lia. }
  exists p1, vhi. unfold percentile. fold n s.
  rewrite percentile_rank_99 by done. fold k.
  repeat split; try done.
  - intros i c Hi.
    assert (i < n) as Hin by (apply lookup_lt_Some in Hi; lia).
    destruct (argsort_rank (Some <$> xs) i) as [p Hp]; [by rewrite length_fmap|].
    destruct (argsort_numbers _ _ _ Hp) as [Ex [x Hx]].
    fold s in Ex. rewrite Hx in Ex.
    assert (p < n) as Hpn by (apply lookup_lt_Some in Hp;
      by rewrite argsort_length, length_fmap in Hp).
    rewrite (Hout p i (Some x)) in Hi
      by (rewrite ?list_lookup_fmap, ?Hx; done).
    injection Hi as <-.
    assert (p1 ≤ vlo)%Qc as H1.
    { eapply (StronglySorted_lookup_le Qcle s); [done| |done..].
      apply percentile_rank_1. }
    assert (vlo ≤ vhi)%Qc as H2.
    { eapply (StronglySorted_lookup_le Qcle s); [done| |done..]. lia. }
    destruct (decide (p < k)); [|destruct (decide (n - k ≤ p))].
    + exists vlo. done.
    + exists vhi. repeat split; [by etrans|reflexivity].
    + exists x. repeat split.
      * etrans; [done|].
        eapply (StronglySorted_lookup_le Qcle s); [done| |done..]. lia.
      * eapply (StronglySorted_lookup_le Qcle s); [done| |done..]. lia.
  - intros p i Hp Hge.
    destruct (argsort_numbers _ _ _ Hp) as [Ex [x Hx]].
    rewrite (Hout p i (Some x)) by (rewrite ?list_lookup_fmap, ?Hx; done).
    rewrite decide_False by lia. by rewrite decide_True by lia.
Qed.

(** ** A load that goes through, and the table it leaves *)

Lemma runs_bind {S A B} (m : M S A) (k : A → M S B) s a s1 b s2 :
  runs m s a s1 → runs (k a) s1 b s2 → runs (m ≫= k) s b s2.
Proof. unfold runs, mbind, M_bind. by intros ->. Qed.

Lemma runs_lift {S A} (r : result A) (s : S) a : r = Ok a → runs (lift r) s a s.
Proof. by intros ->. Qed.

Lemma runs_getitem name d c : column_of name d = Some c → runs (getitem name) d c d.
Proof. unfold runs, getitem, column_of. by intros ->. Qed.

Lemma runs_setitem name c d :
  col_length c = nrows d →
  runs (setitem name c) d ()
    {| index := index d; columns := alist_set name c (columns d) |}.
Proof. intros H. unfold runs, setitem. by rewrite decide_True. Qed.

Lemma runs_dropna1 name d c :
  column_of name d = Some c →
  runs (dropna [name]) d ()
    {| index := keep (take (nrows d) (col_notna c)) (index d);
       columns := prod_map id (col_keep (take (nrows d) (col_notna c)))
                    <$> columns d |}.
Proof.
  unfold runs, dropna, missing_names, notna_rows, column_of. intros H.
  rewrite filter_cons, filter_nil. simpl. rewrite H.
  rewrite decide_False by done. simpl. by rewrite zip_with_andb_true.
Qed.

Lemma keep_length_same {A B} mask (xs : list A) (ys : list B) :
  length xs = length ys → length (keep mask xs) = length (keep mask ys).
Proof.
  revert xs ys. induction mask as [|[] mask IH]; intros [|x xs] [|y ys] H;
    simplify_eq/=; auto.
Qed.

Lemma keep_nonempty {A} mask (xs : list A) :
  length mask ≤ length xs → true ∈ mask → keep mask xs ≠ [].
Proof.
  revert xs. induction mask as [|b mask IH]; intros [|x xs] Hlen Hin; simpl in *.
  - by apply elem_of_nil in Hin.
  - by apply elem_of_nil in Hin.
  - lia.
  - destruct b; [done|]. apply IH; [lia|].
    apply elem_of_cons in Hin as [|]; done.
Qed.

Lemma col_notna_length c : length (col_notna c) = col_length c.
Proof. destruct c; simpl; by rewrite length_fmap. Qed.

Lemma col_keep_length mask c (xs : list nat) :
  col_length c = length xs → col_length (col_keep mask c) = length (keep mask xs).
Proof. destruct c; simpl; apply keep_length_same. Qed.

Lemma to_datetime_length L c date :
  to_datetime L c = Ok date → length date = col_length c.
Proof.
  assert (∀ A (f : A → option datetime) (xs : list (option A)),
    from_option Ok (Raise ValueError)
      (mapM (λ x, match x with Some a => Some <$> f a | None => Some None end) xs)
    = Ok date → length date = length xs) as Hread.
  { intros A f xs. destruct (mapM _ xs) as [ys|] eqn:E; [|done].
    intros [= <-]. by apply length_mapM in E. }
  destruct c; simpl; eauto. by intros [= ->].
Qed.

Lemma wf_column file name c :
  wf_frame file → column_of name file = Some c → col_length c = nrows file.
Proof.
  intros (_ & _ & Hlen). unfold column_of. rewrite Forall_forall in Hlen.
  induction (columns file) as [|[k c'] cols IH]; simpl; [done|].
  case_decide.
  - intros [= <-]. apply (Hlen (k, c')). apply list_elem_of_here.
  - intros H'. apply IH; [|done]. intros kc Hkc. apply Hlen.
    by apply list_elem_of_further.
Qed.

Lemma bind_runs {S A B} (m : M S A) (k : A → M S B) s a s1 :
  runs m s a s1 → (m ≫= k) s = k a s1.
Proof. unfold runs, mbind, M_bind. by intros ->. Qed.

Ltac frame_length :=
  unfold nrows, rolling_std, rolling_mean, rolling_var; cbn [index col_length];
  repeat match goal with
  | H : ?m = take _ _ |- _ => rewrite <- H
  end;
  first
    [ eassumption
    | repeat first
        [ rewrite length_fmap | rewrite pct_change_length
        | rewrite rolling_length | rewrite length_zip_with ];
      repeat match goal with
      | H : length (keep _ _) = length (keep _ (index _)) |- _ => rewrite H
      end;
      rewrite ?Nat.min_id; congruence ].

(** The load goes through on a well-formed file that has the six columns
    it reads, dates that can be read, numbers in [Volume], [Close], [High]
    and [Low], and a row with [Trades]. *)
Lemma load_data_succeeds L file raw_date date trades
    raw_volume raw_close raw_high raw_low :
  wf_frame file →
  column_of "Date" file = Some raw_date →
  to_datetime L raw_date = Ok date →
  column_of "Trades" file = Some trades →
  true ∈ col_notna trades →
  column_of "Volume" file = Some (Numeric raw_volume) →
  column_of "Close" file = Some (Numeric raw_close) →
  column_of "High" file = Some (Numeric raw_high) →
  column_of "Low" file = Some (Numeric raw_low) →
  ∃ out, load_data L file = Ok out.
Proof.
  intros Hwf Hd Hdate Ht Hsome Hv Hc Hh Hl.
  pose proof (wf_column _ _ _ Hwf Hd) as Ld.
  pose proof (wf_column _ _ _ Hwf Ht) as Lt.
  pose proof (wf_column _ _ _ Hwf Hv) as Lv.
  pose proof (wf_column _ _ _ Hwf Hc) as Lc.
  pose proof (wf_column _ _ _ Hwf Hh) as Lh.
  pose proof (wf_column _ _ _ Hwf Hl) as Ll.
  pose proof (to_datetime_length _ _ _ Hdate) as Ldate.
  pose proof (kept_rows_eq _ _ Ht) as Hmask.
  set (mask := kept_rows file) in *.
  assert (mask = col_notna trades) as Emask.
  { rewrite Hmask, take_ge; [done|]. rewrite col_notna_length. lia. }
  unfold nrows in *. simpl in Lv, Lc, Lh, Ll.
  assert (∀ A (xs : list A), length xs = length (index file) →
            length (keep mask xs) = length (keep mask (index file))) as Hkeep.
  { intros A xs. apply keep_length_same. }
  assert (∃ clipped, winsorize (keep mask raw_volume) limits = Ok clipped)
    as [clipped Hw].
  { destruct (winsorize_run (keep mask raw_volume))
      as (? & ? & lo & hi & _ & _ & _ & _ & Hw); [|eauto].
    apply keep_nonempty; [|by rewrite Emask].
    rewrite Emask, col_notna_length. lia. }
  pose proof (winsorize_length _ _ Hw) as Lw.
  pose proof (Hkeep _ raw_volume Lv) as Kv. rewrite Kv in Lw.
  pose proof (Hkeep _ raw_close Lc) as Kc.
  pose proof (Hkeep _ raw_high Lh) as Kh.
  pose proof (Hkeep _ raw_low Ll) as Kl.
  pose proof (Hkeep _ date (eq_trans Ldate Ld)) as Kd.
  clear Hkeep.
  assert (∃ out, runs (load_data_body L) file () out) as [out Hrun];
    [|exists out; unfold load_data; by rewrite Hrun].
  eexists. unfold runs, load_data_body.
  repeat first
    [ erewrite bind_runs by
        first
          [ apply runs_getitem; col_simpl;
            rewrite ?Hd, ?Ht, ?Hv, ?Hc, ?Hh, ?Hl; reflexivity
          | apply runs_lift; first [exact Hdate | exact Hw | reflexivity]
          | apply runs_dropna1; col_simpl; exact Ht
          | apply runs_setitem; frame_length ]
    | progress cbv beta
    | progress (unfold nrows; cbn [index]; rewrite <- ?Hmask) ].
  apply runs_setitem. frame_length.
Qed.

Lemma alist_set_names name c cols :
  (alist_set name c cols).*1
  = if decide (name ∈ cols.*1) then cols.*1 else cols.*1 ++ [name].
Proof.
  induction cols as [|[k c'] cols IH]; cbn [alist_set fmap list_fmap fst].
  - rewrite decide_False; [done|]. apply not_elem_of_nil.
  - destruct (decide (k = name)) as [->|Hk]; cbn [fmap list_fmap fst].
    + by rewrite decide_True by apply list_elem_of_here.
    + rewrite IH. destruct (decide (name ∈ cols.*1)).
      * by rewrite decide_True by by apply list_elem_of_further.
      * rewrite decide_False; [done|]. rewrite elem_of_cons. by intros [|].
Qed.

Lemma alist_set_NoDup name c cols :
  NoDup cols.*1 → NoDup (alist_set name c cols).*1.
Proof.
  intros H. rewrite alist_set_names. case_decide; [done|].
  apply NoDup_app. repeat split; [done| |apply NoDup_singleton].
  intros x Hx Hx'. apply list_elem_of_singleton in Hx'. by subst.
Qed.

Lemma alist_set_Forall (P : string * column → Prop) name c cols :
  (∀ k, P (k, c)) → Forall P cols → Forall P (alist_set name c cols).
Proof.
  intros Hc. induction 1 as [|[k c'] cols Hx Hcols IH]; simpl.
  - by repeat constructor.
  - case_decide; constructor; eauto.
Qed.

Lemma names_prod_map (f : column → column) (cols : list (string * column)) :
  (prod_map id f <$> cols).*1 = cols.*1.
Proof. induction cols as [|[k c] cols IH]; csimpl; [done|]. by rewrite IH. Qed.

(** The table of a load is well formed when the file is. *)
Lemma load_data_wf L file out :
  wf_frame file → load_data L file = Ok out → wf_frame out.
Proof.
  intros Hwf Hload. pose proof Hwf as (Hnd & Hnames & Hlen).
  destruct (load_data_inv _ _ _ Hload)
    as (raw_date & date & ? & raw_volume & raw_close & raw_high & raw_low
        & volume & H).
  destruct H as (Hd & Hdate & _ & _ & _ & Hh & Hl & _ & Lv & Lc & Hout).
  pose proof (wf_column _ _ _ Hwf Hd) as Ld.
  pose proof (wf_column _ _ _ Hwf Hh) as Lh.
  pose proof (wf_column _ _ _ Hwf Hl) as Ll.
  pose proof (to_datetime_length _ _ _ Hdate) as Ldate.
  set (mask := kept_rows file) in *.
  assert (nrows out = length (keep mask (index file))) as Hn by by rewrite Hout.
  rewrite Hn in Lv, Lc.
  assert (∀ A (xs : list A), length xs = nrows file →
            length (keep mask xs) = length (keep mask (index file))) as Hkeep.
  { intros A xs. apply keep_length_same. }
  pose proof (Hkeep _ raw_high Lh) as Kh.
  pose proof (Hkeep _ raw_low Ll) as Kl.
  pose proof (Hkeep _ date (eq_trans Ldate Ld)) as Kd.
  split; [|split].
  - rewrite Hout, enriched_index.
    eapply sublist_NoDup; [exact Hnd|apply keep_sublist].
  - rewrite Hout. unfold enriched. cbn [columns].
    repeat apply alist_set_NoDup.
    rewrite names_prod_map. by apply alist_set_NoDup.
  - rewrite Hn, Hout. unfold enriched. cbn [columns].
    repeat (apply alist_set_Forall; [intros ?; cbn [snd]; frame_length|]).
    rewrite Forall_fmap. apply alist_set_Forall.
    + intros ?. exact Kd.
    + eapply Forall_impl; [exact Hlen|]. intros [k c] Hc. simpl in *.
      by apply col_keep_length.
Qed.

(** * The properties of the specification *)

(** A load that goes through leaves at least one row. *)
Lemma load_data_rows L file out : load_data L file = Ok out → 0 < nrows out.
Proof.
  intros (? & ? & ? & ? & ? & ? & ? & volume & H)%load_data_inv.
  destruct H as (_ & _ & _ & _ & _ & _ & _ & Hw & Hlen & _).
  rewrite <- Hlen. apply winsorize_nonempty in Hw as Hne.
  apply winsorize_length in Hw. rewrite Hw.
  destruct (keep _ _); simpl; [done|lia].
Qed.

(** C2.  In every table of the pipeline the first row of [Daily_Return]
    has no value, and every later row [i] holds
    [Close[i] / Close[i-1] - 1], where [Close] is the column of the rows
    that were kept, in their order, so that row [i-1] is the kept row just
    before row [i].  (The cells of [Close] are numbers and the divisor is
    not zero, as prices are.) *)
Theorem daily_return_is_fractional_change L file out :
  load_data L file = Ok out →
  ∃ raw_close close ret,
    column_of "Close" file = Some (Numeric raw_close)
    ∧ close = keep (kept_rows file) raw_close
    ∧ column_of "Close" out = Some (Numeric close)
    ∧ column_of "Daily_Return" out = Some (Numeric ret)
    ∧ length close = nrows out ∧ length ret = nrows out
    ∧ ret !! 0 = Some None
    ∧ ∀ i a b,
        close !! i = Some (Some a) → close !! S i = Some (Some b) → a ≠ 0%Qc →
        ret !! S i = Some (Some (b / a - 1)%Qc).
Proof.
  intros Hload. pose proof (load_data_rows _ _ _ Hload) as Hrows.
  destruct (load_data_inv _ _ _ Hload)
    as (? & date & ? & ? & raw_close & ? & ? & volume & H).
  destruct H as (_ & _ & _ & _ & Hc & _ & _ & _ & _ & Hlen & ->).
  eexists raw_close, (keep (kept_rows file) raw_close), _.
  split; [done|]. split; [done|].
  split; [by eapply enriched_Close|].
  split; [apply enriched_Daily_Return|].
  split; [done|]. split; [by rewrite pct_change_length|].
  split.
  - apply pct_change_lookup_0. intros E. rewrite <- Hlen, E in Hrows.
    simpl in Hrows. lia.
  - intros i a b. apply pct_change_lookup_S.
Qed.

Lemma daily_return_is_fractional_change_witness :
  ∃ out, load_data example_library five_rows = Ok out
    ∧ ∃ raw_close close ret,
        column_of "Close" five_rows = Some (Numeric raw_close)
        ∧ close = keep (kept_rows five_rows) raw_close
        ∧ column_of "Close" out = Some (Numeric close)
        ∧ column_of "Daily_Return" out = Some (Numeric ret)
        ∧ length close = nrows out ∧ length ret = nrows out
        ∧ ret !! 0 = Some None
        ∧ ∀ i a b,
            close !! i = Some (Some a) → close !! S i = Some (Some b) → a ≠ 0%Qc →
            ret !! S i = Some (Some (b / a - 1)%Qc).
Proof.
  destruct (load_data example_library five_rows) as [out|e] eqn:E.
  - exists out. split; [reflexivity|].
    exact (daily_return_is_fractional_change _ _ _ E).
  - vm_compute in E. discriminate.
Defined.

(** C3.  In every table of the pipeline and for each window [w] of 5, 20
    and 50, the column [MA5], [MA20], [MA50] has no value at a row
    [i < w - 1] and holds at a row [i >= w - 1] the arithmetic mean of
    [Close[i-w+1 .. i]]. *)
Theorem moving_average_is_window_mean L file out :
  load_data L file = Ok out →
  ∃ close ma5 ma20 ma50,
    column_of "Close" out = Some (Numeric close)
    ∧ column_of "MA5" out = Some (Numeric ma5)
    ∧ column_of "MA20" out = Some (Numeric ma20)
    ∧ column_of "MA50" out = Some (Numeric ma50)
    ∧ length close = nrows out
    ∧ ∀ w ma, (w, ma) ∈ [(5, ma5); (20, ma20); (50, ma50)] →
        length ma = nrows out
        ∧ ∀ i, i < nrows out →
            ma !! i = Some (if decide (i < w - 1) then None
                            else range_mean close (i + 1 - w) w).
Proof.
  intros Hload.
  destruct (load_data_inv _ _ _ Hload)
    as (? & date & ? & ? & raw_close & ? & ? & volume & H).
  destruct H as (_ & _ & _ & _ & Hc & _ & _ & _ & _ & Hlen & ->).
  set (close := keep (kept_rows file) raw_close) in *.
  exists close, (rolling_mean 5 close), (rolling_mean 20 close),
    (rolling_mean 50 close).
  split; [by eapply enriched_Close|].
  split; [apply enriched_MA5|]. split; [apply enriched_MA20|].
  split; [apply enriched_MA50|]. split; [done|].
  intros w ma Hw.
  assert (0 < w ∧ ma = rolling_mean w close) as [Hw0 ->].
  { rewrite !elem_of_cons, elem_of_nil in Hw.
    destruct Hw as [[= -> ->]|[[= -> ->]|[[= -> ->]|[]]]]; split; done || lia. }
  split; [unfold rolling_mean; by rewrite rolling_length|].
  intros i Hi. rewrite <- Hlen in Hi. case_decide.
  - apply rolling_lookup_short; [done|lia].
  - replace (i + 1 - w) with (S i - w) by lia.
    apply rolling_mean_lookup_full; [done|lia|done].
Qed.

Lemma moving_average_is_window_mean_witness :
  ∃ out, load_data example_library flat_sixty = Ok out
    ∧ ∃ close ma5 ma20 ma50,
        column_of "Close" out = Some (Numeric close)
        ∧ column_of "MA5" out = Some (Numeric ma5)
        ∧ column_of "MA20" out = Some (Numeric ma20)
        ∧ column_of "MA50" out = Some (Numeric ma50)
        ∧ length close = nrows out
        ∧ ∀ w ma, (w, ma) ∈ [(5, ma5); (20, ma20); (50, ma50)] →
            length ma = nrows out
            ∧ ∀ i, i < nrows out →
                ma !! i = Some (if decide (i < w - 1) then None
                                else range_mean close (i + 1 - w) w).
Proof.
  destruct (load_data example_library flat_sixty) as [out|e] eqn:E.
  - exists out. split; [reflexivity|].
    exact (moving_average_is_window_mean _ _ _ E).
  - vm_compute in E. discriminate.
Defined.

Lemma wf_price_frame date open high low close volume trades vwap :
  Forall (λ n, n = length date)
    [length open; length high; length low; length close; length volume;
     length trades; length vwap] →
  wf_frame (price_frame date open high low close volume trades vwap).
Proof.
  intros H. repeat split; simpl.
  - apply NoDup_seq.
  - by apply (bool_decide_unpack _).
  - unfold nrows. simpl. rewrite length_seq.
    repeat match goal with
    | H : Forall _ (_ :: _) |- _ => apply Forall_cons in H as [? H]
    end.
    repeat constructor; simpl; congruence.
Qed.

(** C5.  For a file with well-formed columns, the table of the pipeline
    is well formed and has at most as many rows as the file; its rows are
    those of the file that have a value in [Trades], in their order, and
    no other: a row of the file is in the table exactly when its [Trades]
    is present. *)
Theorem rows_kept_have_trades L file out :
  wf_frame file →
  load_data L file = Ok out →
  ∃ trades,
    column_of "Trades" file = Some trades
    ∧ wf_frame out
    ∧ nrows out ≤ nrows file
    ∧ index out = keep (col_notna trades) (index file)
    ∧ sublist (index out) (index file)
    ∧ ∀ i label, index file !! i = Some label →
        (label ∈ index out ↔ col_notna trades !! i = Some true).
Proof.
  intros Hwf Hload. pose proof (load_data_wf _ _ _ Hwf Hload) as Hwf'.
  destruct Hwf as (Hnd & _ & _).
  destruct (load_data_inv _ _ _ Hload)
    as (? & date & trades & ? & ? & ? & ? & volume & H).
  destruct H as (_ & _ & Ht & _ & _ & _ & _ & _ & _ & _ & ->).
  exists trades. split; [done|]. split; [done|]. clear Hwf'.
  rewrite enriched_index, (kept_rows_eq _ _ Ht).
  unfold nrows. rewrite enriched_index, keep_take_length.
  split; [apply keep_length_le|]. split; [done|].
  split; [apply keep_sublist|].
  intros i label Hi. rewrite elem_of_keep. split.
  - intros (j & Hj & Hj'). by rewrite (NoDup_lookup _ _ _ _ Hnd Hi Hj').
  - eauto.
Qed.

Lemma rows_kept_have_trades_witness :
  wf_frame five_rows
  ∧ ∃ out, load_data example_library five_rows = Ok out
      ∧ ∃ trades,
          column_of "Trades" five_rows = Some trades
          ∧ wf_frame out
          ∧ nrows out ≤ nrows five_rows
          ∧ index out = keep (col_notna trades) (index five_rows)
          ∧ sublist (index out) (index five_rows)
          ∧ ∀ i label, index five_rows !! i = Some label →
              (label ∈ index out ↔ col_notna trades !! i = Some true).
Proof.
  assert (wf_frame five_rows) as Hwf.
  { apply wf_price_frame. repeat constructor. }
  split; [exact Hwf|].
  destruct (load_data example_library five_rows) as [out|e] eqn:E.
  - exists out. split; [reflexivity|].
    exact (rows_kept_have_trades _ _ _ Hwf E).
  - vm_compute in E. discriminate.
Defined.

(** C6.  [Volume_Change] is computed from the clipped [Volume]: the
    column [Volume] of the table is the winsorized column of the kept
    rows, the first row of [Volume_Change] has no value, and every later
    row [i] holds [Volume[i] / Volume[i-1] - 1] of that clipped column. *)
Theorem volume_change_is_of_clipped_volume L file out :
  load_data L file = Ok out →
  ∃ raw_volume clipped change,
    column_of "Volume" file = Some (Numeric raw_volume)
    ∧ winsorize (keep (kept_rows file) raw_volume) limits = Ok clipped
    ∧ column_of "Volume" out = Some (Numeric clipped)
    ∧ column_of "Volume_Change" out = Some (Numeric change)
    ∧ length clipped = nrows out ∧ length change = nrows out
    ∧ change !! 0 = Some None
    ∧ ∀ i a b,
        clipped !! i = Some (Some a) → clipped !! S i = Some (Some b) → a ≠ 0%Qc →
        change !! S i = Some (Some (b / a - 1)%Qc).
Proof.
  intros Hload. pose proof (load_data_rows _ _ _ Hload) as Hrows.
  destruct (load_data_inv _ _ _ Hload)
    as (? & date & ? & raw_volume & ? & ? & ? & volume & H).
  destruct H as (_ & _ & _ & Hv & _ & _ & _ & Hw & Hlen & _ & ->).
  eexists raw_volume, volume, _.
  split; [done|]. split; [done|].
  split; [apply enriched_Volume|].
  split; [apply enriched_Volume_Change|].
  split; [done|]. split; [by rewrite pct_change_length|].
  split.
  - apply pct_change_lookup_0. intros E. rewrite <- Hlen, E in Hrows.
    simpl in Hrows. lia.
  - intros i a b. apply pct_change_lookup_S.
Qed.

Lemma volume_change_is_of_clipped_volume_witness :
  ∃ out, load_data example_library outlier_two_hundred = Ok out
    ∧ ∃ raw_volume clipped change,
        column_of "Volume" outlier_two_hundred = Some (Numeric raw_volume)
        ∧ winsorize (keep (kept_rows outlier_two_hundred) raw_volume) limits
          = Ok clipped
        ∧ column_of "Volume" out = Some (Numeric clipped)
        ∧ column_of "Volume_Change" out = Some (Numeric change)
        ∧ length clipped = nrows out ∧ length change = nrows out
        ∧ change !! 0 = Some None
        ∧ ∀ i a b,
            clipped !! i = Some (Some a) → clipped !! S i = Some (Some b) →
            a ≠ 0%Qc → change !! S i = Some (Some (b / a - 1)%Qc).
Proof.
  destruct (load_data example_library outlier_two_hundred) as [out|e] eqn:E.
  - exists out. split; [reflexivity|].
    exact (volume_change_is_of_clipped_volume _ _ _ E).
  - vm_compute in E. discriminate.
Defined.

(** On the two hundred rows with the outlier, the change of the clipped
    volume is not the change of the volume as it was read. *)
Example volume_change_of_raw_differs :
  ∃ out change,
    load_data example_library outlier_two_hundred = Ok out
    ∧ column_of "Volume_Change" out = Some (Numeric change)
    ∧ change ≠ pct_change true outlier_volume.
Proof.
  destruct (load_data example_library outlier_two_hundred) as [out|e] eqn:E.
  - vm_compute in E. injection E as <-.
    eexists _, _. split; [reflexivity|]. split; [reflexivity|].
    apply (bool_decide_unpack _). by vm_compute.
  - vm_compute in E. discriminate.
Qed.

(** C10.  When fewer than a hundred rows are kept, so that
    [int(0.01 * n) = 0], the clipping changes nothing: the column
    [Volume] of the table is the column of the kept rows as it was read,
    whatever its values. *)
Theorem small_sample_is_not_clipped L file out raw_volume :
  load_data L file = Ok out →
  column_of "Volume" file = Some (Numeric raw_volume) →
  nrows out < 100 →
  int (hundredth * natQc (nrows out)) = 0%Z
  ∧ column_of "Volume" out = Some (Numeric (keep (kept_rows file) raw_volume)).
Proof.
  intros Hload Hraw Hn.
  destruct (load_data_inv _ _ _ Hload)
    as (? & date & ? & raw_volume' & ? & ? & ? & volume & H).
  destruct H as (_ & _ & _ & Hv & _ & _ & _ & Hw & Hlen & _ & Hout).
  rewrite Hraw in Hv. injection Hv as <-.
  split; [by rewrite int_hundredth, Nat.div_small|].
  pose proof (winsorize_length _ _ Hw) as Hlen'.
  rewrite winsorize_small in Hw.
  - injection Hw as <-. rewrite Hout. apply enriched_Volume.
  - by eapply winsorize_nonempty.
  - lia.
Qed.

Lemma small_sample_is_not_clipped_witness :
  ∃ out raw_volume,
    load_data example_library five_rows = Ok out
    ∧ column_of "Volume" five_rows = Some (Numeric raw_volume)
    ∧ nrows out < 100
    ∧ int (hundredth * natQc (nrows out)) = 0%Z
    ∧ column_of "Volume" out
      = Some (Numeric (keep (kept_rows five_rows) raw_volume)).
Proof.
  destruct (load_data example_library five_rows) as [out|e] eqn:E.
  - assert (nrows out < 100) as Hn.
    { vm_compute in E. injection E as <-. vm_compute. lia. }
    exists out, (nums [100; 400; 300; 200; 900]%Z).
    split; [reflexivity|]. split; [reflexivity|]. split; [exact Hn|].
    exact (small_sample_is_not_clipped _ _ _ _ E eq_refl Hn).
  - vm_compute in E. discriminate.
Defined.

(** The row of the one greatest number has the last rank. *)
Lemma argsort_greatest xs j m :
  xs !! j = Some m →
  (∀ i y, i ≠ j → xs !! i = Some y → (y < m)%Qc) →
  argsort (Some <$> xs) !! (length xs - 1) = Some j.
Proof.
  intros Hj Hmax. pose proof (lookup_lt_Some _ _ _ Hj) as Hlt.
  destruct (lookup_lt_is_Some_2 (argsort (Some <$> xs)) (length xs - 1))
    as [i Hi]; [rewrite argsort_length, length_fmap; lia|].
  destruct (decide (i = j)) as [->|Hne]; [done|]. exfalso.
  destruct (argsort_rank (Some <$> xs) j) as [p Hp]; [by rewrite length_fmap|].
  assert (p ≤ length xs - 1) as Hple.
  { apply lookup_lt_Some in Hp. rewrite argsort_length, length_fmap in Hp. lia. }
  destruct (argsort_numbers _ _ _ Hi) as [_ [y Hy]].
  pose proof (argsort_sorted (Some <$> xs) p (length xs - 1) j i (Some m) (Some y)
    Hple Hp Hi) as Hle.
  rewrite !list_lookup_fmap, Hj, Hy in Hle. specialize (Hle eq_refl eq_refl).
  simpl in Hle. apply (Qcle_not_lt _ _ Hle). by eapply Hmax.
Qed.

(** C1.  When the kept rows of [Volume] are numbers, every cell of the
    column [Volume] of the table lies between the 1st and the 99th
    percentile of those numbers (percentiles by nearest rank).  In
    particular, with a hundred rows or more, as with 200, the row of a
    single greatest volume holds the 99th percentile of the volumes
    before the clipping, which is less than the volume it had. *)
Theorem volume_is_clipped_to_percentiles L file out raw_volume volumes :
  load_data L file = Ok out →
  column_of "Volume" file = Some (Numeric raw_volume) →
  keep (kept_rows file) raw_volume = Some <$> volumes →
  ∃ clipped p1 p99,
    column_of "Volume" out = Some (Numeric clipped)
    ∧ length clipped = length volumes
    ∧ percentile 1 volumes = Some p1
    ∧ percentile 99 volumes = Some p99
    ∧ (∀ i c, clipped !! i = Some c →
         ∃ y, c = Some y ∧ (p1 ≤ y)%Qc ∧ (y ≤ p99)%Qc)
    ∧ ∀ j m,
        100 ≤ length volumes →
        volumes !! j = Some m →
        (∀ i y, i ≠ j → volumes !! i = Some y → (y < m)%Qc) →
        clipped !! j = Some (Some p99) ∧ (p99 < m)%Qc.
Proof.
  intros Hload Hraw Hnum.
  destruct (load_data_inv _ _ _ Hload)
    as (? & date & ? & raw_volume' & ? & ? & ? & clipped & H).
  destruct H as (_ & _ & _ & Hv & _ & _ & _ & Hw & _ & _ & ->).
  rewrite Hraw in Hv. injection Hv as <-. rewrite Hnum in Hw.
  destruct (winsorize_percentiles _ _ Hw) as (p1 & p99 & Hp1 & Hp99 & Hin & Htop).
  exists clipped, p1, p99.
  split; [apply enriched_Volume|].
  split; [by rewrite (winsorize_length _ _ Hw), length_fmap|].
  split; [done|]. split; [done|]. split; [done|].
  intros j m Hn Hj Hmax.
  pose proof (argsort_greatest _ _ _ Hj Hmax) as Hlast.
  set (n := length volumes) in *.
  assert (1 ≤ n / 100) as Hk.
  { apply (Nat.Div0.div_le_mono 100 n 100) in Hn. by rewrite Nat.div_same in Hn. }
  split; [apply (Htop (n - 1)); [done|lia]|].
  destruct (lookup_lt_is_Some_2 (argsort (Some <$> volumes)) (n - n / 100 - 1))
    as [i Hi]; [rewrite argsort_length, length_fmap; fold n; lia|].
  destruct (argsort_numbers _ _ _ Hi) as [Ey [y Hy]].
  unfold percentile in Hp99. fold n in Hp99.
  rewrite percentile_rank_99, <- Ey, Hy in Hp99 by lia. injection Hp99 as <-.
  apply (Hmax i); [|done]. intros ->.
  pose proof (NoDup_lookup _ _ _ _ (argsort_NoDup _) Hi Hlast). lia.
Qed.

Lemma volume_is_clipped_to_percentiles_witness :
  ∃ out volumes,
    load_data example_library outlier_two_hundred = Ok out
    ∧ column_of "Volume" outlier_two_hundred = Some (Numeric outlier_volume)
    ∧ keep (kept_rows outlier_two_hundred) outlier_volume = Some <$> volumes
    ∧ length volumes = 200
    ∧ volumes !! 57 = Some (ZQc 1100000)
    ∧ ∃ clipped p1 p99,
        column_of "Volume" out = Some (Numeric clipped)
        ∧ length clipped = length volumes
        ∧ percentile 1 volumes = Some p1
        ∧ percentile 99 volumes = Some p99
        ∧ (∀ i c, clipped !! i = Some c →
             ∃ y, c = Some y ∧ (p1 ≤ y)%Qc ∧ (y ≤ p99)%Qc)
        ∧ ∀ j m,
            100 ≤ length volumes →
            volumes !! j = Some m →
            (∀ i y, i ≠ j → volumes !! i = Some y → (y < m)%Qc) →
            clipped !! j = Some (Some p99) ∧ (p99 < m)%Qc.
Proof.
  destruct (load_data example_library outlier_two_hundred) as [out|e] eqn:E.
  - exists out, (<[57 := ZQc 1100000]> (ZQc ∘ Z.of_nat <$> seq 1000 200)).
    split; [reflexivity|]. split; [reflexivity|].
    assert (keep (kept_rows outlier_two_hundred) outlier_volume
            = Some <$> <[57 := ZQc 1100000]> (ZQc ∘ Z.of_nat <$> seq 1000 200))
      as Hkept by (vm_compute; reflexivity).
    split; [exact Hkept|]. split; [reflexivity|]. split; [reflexivity|].
    exact (volume_is_clipped_to_percentiles _ _ _ _ _ E eq_refl Hkept).
  - vm_compute in E. discriminate.
Defined.

(** ** A flat price *)

Lemma flat_returns pad :
  pct_change pad (replicate 60 (Some (ZQc 100)))
  = None :: replicate 59 (Some 0%Qc).
Proof. destruct pad; apply (bool_decide_unpack _); by vm_compute. Qed.

Lemma flat_average w :
  w ∈ [5; 20; 50] →
  rolling_mean w (replicate 60 (Some (ZQc 100)))
  = replicate (w - 1) None ++ replicate (61 - w) (Some (ZQc 100)).
Proof.
  rewrite !elem_of_cons, elem_of_nil.
  intros [->|[->|[->|[]]]]; apply (bool_decide_unpack _); by vm_compute.
Qed.

Lemma flat_variance :
  rolling_var 20 (None :: replicate 59 (Some 0%Qc))
  = replicate 20 None ++ replicate 40 (Some 0%Qc).
Proof. apply (bool_decide_unpack _). by vm_compute. Qed.

(** C7.  For a file of 60 rows, none without [Trades], whose [Close] is
    100 in every row: [Daily_Return] is 0 at every row from the second on;
    [MA5], [MA20] and [MA50] are 100 at every row where they have a value
    (from rows 4, 19 and 49 on); and [Rolling_Volatility_20] is 0 at every
    row where it has a value (from row 20 on).  The root of 0 is 0. *)
Theorem flat_close_gives_flat_indicators L file out :
  load_data L file = Ok out →
  nrows file = 60 →
  kept_rows file = replicate 60 true →
  column_of "Close" file = Some (Numeric (replicate 60 (Some (ZQc 100)))) →
  sqrt L 0%Qc = 0%Qc →
  column_of "Daily_Return" out
    = Some (Numeric (None :: replicate 59 (Some 0%Qc)))
  ∧ column_of "MA5" out
    = Some (Numeric (replicate 4 None ++ replicate 56 (Some (ZQc 100))))
  ∧ column_of "MA20" out
    = Some (Numeric (replicate 19 None ++ replicate 41 (Some (ZQc 100))))
  ∧ column_of "MA50" out
    = Some (Numeric (replicate 49 None ++ replicate 11 (Some (ZQc 100))))
  ∧ column_of "Rolling_Volatility_20" out
    = Some (Numeric (replicate 20 None ++ replicate 40 (Some 0%Qc))).
Proof.
  intros Hload _ Hkept Hclose Hsqrt.
  destruct (load_data_inv _ _ _ Hload)
    as (? & date & ? & ? & raw_close & ? & ? & volume & H).
  destruct H as (_ & _ & _ & _ & Hc & _ & _ & _ & _ & _ & ->).
  assert (raw_close = replicate 60 (Some (ZQc 100))) as -> by congruence.
  rewrite Hkept, (keep_all 60 (replicate 60 _)) by (by rewrite length_replicate).
  rewrite enriched_Daily_Return, enriched_MA5, enriched_MA20, enriched_MA50,
    enriched_Rolling_Volatility_20.
  rewrite flat_returns, !flat_average by (repeat constructor).
  repeat split; try done.
  unfold rolling_std. rewrite flat_variance, fmap_app, !fmap_replicate.
  simpl. by rewrite Hsqrt.
Qed.

Lemma flat_close_gives_flat_indicators_witness :
  ∃ out,
    load_data example_library flat_sixty = Ok out
    ∧ nrows flat_sixty = 60
    ∧ kept_rows flat_sixty = replicate 60 true
    ∧ column_of "Close" flat_sixty
      = Some (Numeric (replicate 60 (Some (ZQc 100))))
    ∧ sqrt example_library 0%Qc = 0%Qc
    ∧ column_of "Daily_Return" out
      = Some (Numeric (None :: replicate 59 (Some 0%Qc)))
    ∧ column_of "MA5" out
      = Some (Numeric (replicate 4 None ++ replicate 56 (Some (ZQc 100))))
    ∧ column_of "MA20" out
      = Some (Numeric (replicate 19 None ++ replicate 41 (Some (ZQc 100))))
    ∧ column_of "MA50" out
      = Some (Numeric (replicate 49 None ++ replicate 11 (Some (ZQc 100))))
    ∧ column_of "Rolling_Volatility_20" out
      = Some (Numeric (replicate 20 None ++ replicate 40 (Some 0%Qc))).
Proof.
  assert (sqrt example_library 0%Qc = 0%Qc) as Hsqrt.
  { apply Qc_is_canon. reflexivity. }
  destruct (load_data example_library flat_sixty) as [out|e] eqn:E.
  - exists out. split; [reflexivity|]. split; [reflexivity|].
    split; [reflexivity|]. split; [reflexivity|]. split; [exact Hsqrt|].
    exact (flat_close_gives_flat_indicators _ _ _ E eq_refl eq_refl eq_refl Hsqrt).
  - vm_compute in E. discriminate.
Defined.

(** ** The order of the rows *)

Lemma kept_rows_agree file file' :
  index file' = index file →
  column_of "Trades" file' = column_of "Trades" file →
  kept_rows file' = kept_rows file.
Proof.
  unfold kept_rows, notna_rows, column_of, nrows. simpl. by intros -> ->.
Qed.

(** Apart from [Date] and [Month], the enriched table does not depend on
    the dates. *)
Lemma enriched_agree L file file' mask date date' volume close high low name :
  (∀ n, n ≠ "Date" → column_of n file' = column_of n file) →
  name ∉ ["Date"; "Month"] →
  column_of name (enriched L file' mask date' volume close high low)
  = column_of name (enriched L file mask date volume close high low).
Proof.
  intros Hagree Hn.
  assert (name ≠ "Date" ∧ name ≠ "Month") as [Hd Hm].
  { split; intros ->; apply Hn; repeat constructor. }
  unfold enriched, column_of. cbn [columns].
  rewrite !alist_lookup_set, !alist_lookup_fmap, !alist_lookup_set.
  rewrite !(decide_False (P := "Month" = name)) by done.
  rewrite !(decide_False (P := "Date" = name)) by done.
  specialize (Hagree name Hd). unfold column_of in Hagree. by rewrite Hagree.
Qed.

(** C9.  The pipeline keeps the rows in the order of the file and never
    sorts them: the labels of the table are those of the kept rows in
    their order, a column that is only read keeps its cells in that
    order, and the derived columns are computed along it.  The dates have
    no part in it: a file with the same rows and other dates gives the
    same table, but for [Date] and [Month]. *)
Theorem rows_stay_in_file_order L file out :
  load_data L file = Ok out →
  let mask := kept_rows file in
  index out = keep mask (index file)
  ∧ sublist (index out) (index file)
  ∧ (∀ name c, name ∉ columns_written → column_of name file = Some c →
       column_of name out = Some (col_keep mask c))
  ∧ (∃ raw_close raw_volume clipped,
       let close := keep mask raw_close in
       let ret := pct_change (pct_change_pad L) close in
       column_of "Close" file = Some (Numeric raw_close)
       ∧ column_of "Volume" file = Some (Numeric raw_volume)
       ∧ winsorize (keep mask raw_volume) limits = Ok clipped
       ∧ column_of "Daily_Return" out = Some (Numeric ret)
       ∧ column_of "MA5" out = Some (Numeric (rolling_mean 5 close))
       ∧ column_of "MA20" out = Some (Numeric (rolling_mean 20 close))
       ∧ column_of "MA50" out = Some (Numeric (rolling_mean 50 close))
       ∧ column_of "Volume_Change" out
         = Some (Numeric (pct_change (pct_change_pad L) clipped))
       ∧ column_of "Rolling_Volatility_20" out
         = Some (Numeric (rolling_std L 20 ret))
       ∧ column_of "Rolling_Mean_20" out = Some (Numeric (rolling_mean 20 ret)))
  ∧ ∀ file' out',
      load_data L file' = Ok out' →
      index file' = index file →
      (∀ name, name ≠ "Date" → column_of name file' = column_of name file) →
      index out' = index out
      ∧ ∀ name, name ∉ ["Date"; "Month"] →
          column_of name out' = column_of name out.
Proof.
  intros Hload mask.
  destruct (load_data_inv _ _ _ Hload)
    as (? & date & trades & raw_volume & raw_close & raw_high & raw_low & volume & H).
  destruct H as (_ & _ & Ht & Hv & Hc & Hh & Hl & Hw & _ & _ & ->).
  fold mask in Hw |- *.
  split; [done|]. split; [apply keep_sublist|]. split.
  { intros name c Hname Hcol. by rewrite enriched_other, Hcol. }
  split.
  { exists raw_close, raw_volume, volume.
    rewrite enriched_Daily_Return, enriched_MA5, enriched_MA20, enriched_MA50,
      enriched_Volume_Change, enriched_Rolling_Volatility_20,
      enriched_Rolling_Mean_20.
    by repeat split. }
  intros file' out' Hload' Hindex Hagree.
  destruct (load_data_inv _ _ _ Hload')
    as (? & date' & trades' & raw_volume' & raw_close' & raw_high' & raw_low'
        & volume' & H).
  destruct H as (_ & _ & Ht' & Hv' & Hc' & Hh' & Hl' & Hw' & _ & _ & ->).
  assert (kept_rows file' = mask) as Hmask.
  { apply kept_rows_agree; [done|]. by apply Hagree. }
  rewrite Hagree, Hv in Hv' by done. rewrite Hagree, Hc in Hc' by done.
  rewrite Hagree, Hh in Hh' by done. rewrite Hagree, Hl in Hl' by done.
  simplify_eq. rewrite Hmask in *. rewrite Hw in Hw'. simplify_eq.
  split.
  - by rewrite !enriched_index, Hindex.
  - intros name Hname. by apply enriched_agree.
Qed.

Lemma rows_stay_in_file_order_witness :
  ∃ out, load_data example_library five_rows = Ok out
    ∧ index out = keep (kept_rows five_rows) (index five_rows)
    ∧ sublist (index out) (index five_rows).
Proof.
  destruct (load_data example_library five_rows) as [out|e] eqn:E.
  - exists out. split; [reflexivity|].
    destruct (rows_stay_in_file_order _ _ _ E) as (H1 & H2 & _).
    split; [exact H1|exact H2].
  - vm_compute in E. discriminate.
Defined.

(** ** A file without one of its columns *)

(** C4, as it is stated, fails: a file without the required column
    [VWAP] is loaded, and sections of its page are rendered. *)
Lemma missing_required_column_counterexample :
  ¬ (∀ L file fl c,
       c ∈ required_columns → column_of c file = None →
       is_ok (load_data L file) = false
       ∧ Forall (λ e, rendered e = false) (script L (Some file) fl)).
Proof.
  intros H.
  destruct (H example_library (without "VWAP" five_rows) all_sections "VWAP")
    as [Hload _].
  - repeat constructor.
  - reflexivity.
  - vm_compute in Hload. discriminate.
Qed.

(** C4, amended.  For every file that lacks one of the columns that
    [load_data] reads ([Date], [Trades], [Volume], [Close], [High],
    [Low]; in particular one without [Trades]), the load fails with an
    exception and gives no table, and the page shows the exception and
    nothing of the sections. *)
Theorem missing_read_column_fails_load L file fl c :
  c ∈ columns_read →
  column_of c file = None →
  ∃ e, load_data L file = Raise e
     ∧ script L (Some file) fl = [Exception e]
     ∧ Forall (λ e, rendered e = false) (script L (Some file) fl).
Proof.
  intros Hc Hnone.
  destruct (load_data L file) as [out|e] eqn:E.
  - exfalso.
    destruct (load_data_inv _ _ _ E) as (? & ? & ? & ? & ? & ? & ? & ? & H).
    destruct H as (Hd & _ & Ht & Hv & Hcl & Hh & Hl & _).
    unfold columns_read in Hc. rewrite !elem_of_cons, elem_of_nil in Hc.
    destruct Hc as [->|[->|[->|[->|[->|[->|[]]]]]]]; congruence.
  - exists e. unfold script. rewrite E. repeat split. by repeat constructor.
Qed.

Lemma missing_read_column_fails_load_witness :
  "Trades" ∈ columns_read
  ∧ column_of "Trades" (without "Trades" five_rows) = None
  ∧ ∃ e, load_data example_library (without "Trades" five_rows) = Raise e
       ∧ script example_library (Some (without "Trades" five_rows)) all_sections
         = [Exception e]
       ∧ Forall (λ e, rendered e = false)
           (script example_library (Some (without "Trades" five_rows))
              all_sections).
Proof.
  assert ("Trades" ∈ columns_read) as Hin by (repeat constructor).
  split; [exact Hin|]. split; [reflexivity|].
  exact (missing_read_column_fails_load example_library
           (without "Trades" five_rows) all_sections "Trades" Hin eq_refl).
Defined.

(** ** Rendering reads the table *)

Lemma reads_getitem name : reads (getitem name).
Proof. intros d. unfold getitem. by destruct (alist_lookup _ _). Qed.

Lemma reads_gets {A} (f : DataFrame → A) : reads (gets f).
Proof. done. Qed.

Lemma reads_select names : reads (select names).
Proof. intros d. unfold select. by destruct (missing_names _ _). Qed.

Lemma keeps_frame_ret {A} (a : A) : keeps_frame (mret a).
Proof. done. Qed.

Lemma keeps_frame_bind {A B} (m : M session A) (k : A → M session B) :
  keeps_frame m → (∀ a, keeps_frame (k a)) → keeps_frame (m ≫= k).
Proof.
  intros Hm Hk s. unfold mbind, M_bind. specialize (Hm s).
  destruct (m s) as [[a|e] s']; simpl in *; [|done].
  by rewrite Hk.
Qed.

Lemma keeps_frame_st e : keeps_frame (st e).
Proof. done. Qed.

Lemma keeps_frame_lift {A} (r : result A) : keeps_frame (lift r).
Proof. done. Qed.

Lemma keeps_frame_frame {A} (m : M DataFrame A) : reads m → keeps_frame (frame m).
Proof.
  intros Hm s. unfold frame. specialize (Hm (df s)).
  by destruct (m (df s)) as [r d].
Qed.

Lemma keeps_frame_when b (m : M session ()) :
  keeps_frame m → keeps_frame (when b m).
Proof. by destruct b. Qed.

Ltac frame_kept :=
  repeat first
    [ apply keeps_frame_bind; [|intros ?]
    | apply keeps_frame_st
    | apply keeps_frame_lift
    | apply keeps_frame_ret
    | apply keeps_frame_frame;
      first [apply reads_getitem | apply reads_gets | apply reads_select] ].

Lemma keeps_frame_plot x y kw : keeps_frame (plot x y kw).
Proof. unfold plot. frame_kept. Qed.

Lemma keeps_frame_eda : keeps_frame eda_section.
Proof. unfold eda_section. frame_kept. Qed.

Lemma keeps_frame_visuals : keeps_frame visuals_section.
Proof.
  unfold visuals_section.
  repeat first [apply keeps_frame_plot | progress frame_kept].
Qed.

Lemma keeps_frame_metrics L : keeps_frame (metrics_section L).
Proof. unfold metrics_section. frame_kept. Qed.

(** C8.  Rendering the sections leaves the table as it is, for every
    table and every choice of the three checkboxes, also when a section
    stops on an exception: the frame after [render] is the frame before
    it, with its labels, its columns and their cells. *)
Theorem render_leaves_table_unchanged L (fl : flags) (s : session) :
  df (render L fl s).2 = df s.
Proof.
  revert s. change (keeps_frame (render L fl)). unfold render.
  apply keeps_frame_bind; [apply keeps_frame_st|intros _].
  apply keeps_frame_bind; [apply keeps_frame_when, keeps_frame_eda|intros _].
  apply keeps_frame_bind; [apply keeps_frame_when, keeps_frame_visuals|intros _].
  apply keeps_frame_when, keeps_frame_metrics.
Qed.

(** * Further properties of the code *)

(** ** How a load fails *)

Lemma bind_raise {S A B} (m : M S A) (k : A → M S B) s e s1 :
  m s = (Raise e, s1) → (m ≫= k) s = (Raise e, s1).
Proof. unfold mbind, M_bind. by intros ->. Qed.


(** X1.  The load goes through, and gives a table, on every well-formed
    file that has the six columns it reads, dates that can be read,
    numbers in [Volume], [Close], [High] and [Low], and at least one row
    with [Trades]. *)
Theorem load_goes_through L file raw_date date trades
    raw_volume raw_close raw_high raw_low :
  wf_frame file →
  column_of "Date" file = Some raw_date →
  to_datetime L raw_date = Ok date →
  column_of "Trades" file = Some trades →
  true ∈ col_notna trades →
  column_of "Volume" file = Some (Numeric raw_volume) →
  column_of "Close" file = Some (Numeric raw_close) →
  column_of "High" file = Some (Numeric raw_high) →
  column_of "Low" file = Some (Numeric raw_low) →
  ∃ out, load_data L file = Ok out ∧ 0 < nrows out ∧ wf_frame out.
Proof.
  intros Hwf ? ? ? ? ? ? ? ?.
  destruct (load_data_succeeds L file raw_date date trades raw_volume
              raw_close raw_high raw_low) as [out Hout]; try done.
  exists out. split; [done|].
  split; [by eapply load_data_rows|by eapply load_data_wf].
Qed.

Lemma wf_five_rows : wf_frame five_rows.
Proof. apply wf_price_frame. repeat constructor. Qed.

Lemma load_goes_through_witness :
  ∃ out, load_data example_library five_rows = Ok out
       ∧ 0 < nrows out ∧ wf_frame out.
Proof.
  eapply (load_goes_through example_library five_rows);
    [exact wf_five_rows|reflexivity|reflexivity|reflexivity| |
     reflexivity|reflexivity|reflexivity|reflexivity].
  repeat constructor.
Defined.



(** X3.  A file without the column [Date] fails the load at its first
    statement, with a [KeyError] that names [Date], whatever else the file
    holds. *)
Theorem missing_date_is_key_error L file :
  column_of "Date" file = None →
  load_data L file = Raise (KeyError ["Date"]).
Proof.
  intros Hd. unfold load_data, load_data_body.
  erewrite bind_raise; [done|].
  unfold getitem. unfold column_of in Hd. by rewrite Hd.
Qed.

Lemma missing_date_is_key_error_witness :
  load_data example_library (without "Date" five_rows)
  = Raise (KeyError ["Date"]).
Proof.
  exact (missing_date_is_key_error example_library
           (without "Date" five_rows) eq_refl).
Defined.

(** X4.  A well-formed file whose dates can be read and that has no
    column [Trades] fails the load in [dropna], with a [KeyError] that
    names [Trades]. *)
Theorem missing_trades_is_key_error L file raw_date date :
  wf_frame file →
  column_of "Date" file = Some raw_date →
  to_datetime L raw_date = Ok date →
  column_of "Trades" file = None →
  load_data L file = Raise (KeyError ["Trades"]).
Proof.
  intros Hwf Hd Hdate Ht.
  pose proof (wf_column _ _ _ Hwf Hd) as Ld.
  pose proof (to_datetime_length _ _ _ Hdate) as Ldate.
  unfold nrows in *. unfold load_data, load_data_body.
  repeat first
    [ erewrite bind_runs by
        first
          [ apply runs_getitem; col_simpl; rewrite ?Hd; reflexivity
          | apply runs_lift; exact Hdate
          | apply runs_setitem; simpl; unfold nrows; congruence ]
    | progress cbv beta ].
  erewrite bind_raise; [done|].
  unfold dropna, missing_names. rewrite filter_cons, filter_nil.
  cbn [columns]. rewrite alist_lookup_set.
  rewrite (decide_False (P := "Date" = "Trades")) by done.
  unfold column_of in Ht. rewrite Ht. by rewrite decide_True.
Qed.

Lemma wf_without name d : wf_frame d → wf_frame (without name d).
Proof.
  intros (Hi & Hn & Hl). repeat split; simpl; [done| |].
  - eapply sublist_NoDup; [exact Hn|].
    apply fmap_sublist, sublist_filter.
  - unfold nrows in *. simpl. rewrite Forall_forall in Hl |- *.
    intros kc [_ Hkc]%list_elem_of_filter. by apply Hl.
Qed.

Lemma missing_trades_is_key_error_witness :
  load_data example_library (without "Trades" five_rows)
  = Raise (KeyError ["Trades"]).
Proof.
  eapply (missing_trades_is_key_error example_library
            (without "Trades" five_rows));
    [|reflexivity|reflexivity|reflexivity].
  apply wf_without, wf_five_rows.
Defined.

(** X5.  A file whose [Date] column is text with a cell that cannot be
    read as a date fails the load with [ValueError], before any row is
    dropped. *)
Theorem unreadable_date_is_value_error L file cells i text :
  column_of "Date" file = Some (Object cells) →
  cells !! i = Some (Some text) →
  parse_datetime L text = None →
  load_data L file = Raise ValueError.
Proof.
  intros Hd Hi Hparse. unfold load_data, load_data_body.
  erewrite bind_runs by (apply runs_getitem; exact Hd). cbv beta.
  erewrite bind_raise; [done|].
  unfold lift. f_equal. simpl.
  destruct (mapM _ cells) as [ys|] eqn:E; [|done]. exfalso.
  apply mapM_Some_1 in E.
  destruct (Forall2_lookup_l _ _ _ _ _ E Hi) as (y & _ & Hy).
  simpl in Hy. by rewrite Hparse in Hy.
Qed.

Lemma unreadable_date_is_value_error_witness :
  load_data example_library bad_date_rows = Raise ValueError.
Proof.
  exact (unreadable_date_is_value_error example_library bad_date_rows
           [a_day; Some EmptyString; a_day] 1 EmptyString
           eq_refl eq_refl eq_refl).
Defined.

(** ** The other derived columns *)

Lemma enriched_read L file mask date volume close high low name c :
  name ∉ columns_written →
  column_of name file = Some c →
  column_of name (enriched L file mask date volume close high low)
  = Some (col_keep mask c).
Proof. intros Hn Hc. by rewrite enriched_other, Hc. Qed.

Lemma enriched_High_Low_Difference L file mask date volume close high low :
  column_of "High_Low_Difference"
    (enriched L file mask date volume close high low)
  = Some (Numeric (zip_with cell_sub high low)).
Proof. unfold enriched. by col_simpl. Qed.

Lemma enriched_Date L file mask date volume close high low :
  column_of "Date" (enriched L file mask date volume close high low)
  = Some (Datetime (keep mask date)).
Proof. unfold enriched. by col_simpl. Qed.

Lemma enriched_Month L file mask date volume close high low :
  column_of "Month" (enriched L file mask date volume close high low)
  = Some (Numeric (month_cell <$> keep mask date)).
Proof. unfold enriched. by col_simpl. Qed.

Lemma not_written name :
  bool_decide (name ∈ columns_written) = false → name ∉ columns_written.
Proof. intros H Hin. by rewrite bool_decide_eq_true_2 in H. Qed.



Lemma observations_lt xs : None ∈ xs → length (observations xs) < length xs.
Proof.
  induction xs as [|[x|] xs IH]; rewrite ?observations_cons; simpl.
  - by intros ?%elem_of_nil.
  - intros [?|?]%elem_of_cons; [done|]. specialize (IH H). lia.
  - intros _. pose proof (observations_length_le xs). lia.
Qed.

(** A window that holds a cell without a number has no value. *)
Lemma rolling_lookup_missing w agg xs i j :
  i < length xs → S i - w ≤ j ≤ i → xs !! j = Some None →
  rolling w agg xs !! i = Some None.
Proof.
  intros Hi Hj Hnone. rewrite rolling_lookup by done. simpl.
  rewrite decide_True; [done|].
  assert (None ∈ window w i xs) as Hin.
  { unfold window. apply list_elem_of_lookup. exists (j - (S i - w)).
    rewrite lookup_drop, lookup_take_lt by lia.
    by replace (S i - w + (j - (S i - w))) with j by lia. }
  pose proof (observations_lt _ Hin) as Hlt.
  assert (length (window w i xs) ≤ w); [|lia].
  unfold window. rewrite length_drop, length_take_le by lia. lia.
Qed.

(** X7.  [Rolling_Mean_20] and [Rolling_Volatility_20] are rolled over
    [Daily_Return], whose first row has no value: they have no value at
    the first twenty rows (0 to 19), and from row 20 on [Rolling_Mean_20]
    is the mean of the twenty returns that end at the row. *)
Theorem rolling_return_columns_start_at_row_20 L file out :
  load_data L file = Ok out →
  ∃ ret rmean rvol,
    column_of "Daily_Return" out = Some (Numeric ret)
    ∧ column_of "Rolling_Mean_20" out = Some (Numeric rmean)
    ∧ column_of "Rolling_Volatility_20" out = Some (Numeric rvol)
    ∧ length ret = nrows out
    ∧ (∀ i, i < nrows out → i < 20 →
         rmean !! i = Some None ∧ rvol !! i = Some None)
    ∧ ∀ i, i < nrows out → 20 ≤ i →
        rmean !! i = Some (range_mean ret (i - 19) 20).
Proof.
  intros Hload. pose proof (load_data_rows _ _ _ Hload) as Hrows.
  destruct (load_data_inv _ _ _ Hload)
    as (? & date & ? & ? & raw_close & ? & ? & volume & H).
  destruct H as (_ & _ & _ & _ & _ & _ & _ & _ & _ & Hlen & Hout).
  set (close := keep (kept_rows file) raw_close) in *.
  set (ret := pct_change (pct_change_pad L) close).
  assert (length ret = nrows out) as Lret
    by (subst ret; by rewrite pct_change_length).
  assert (ret !! 0 = Some None) as Hret0.
  { apply pct_change_lookup_0. intros E. rewrite <- Hlen, E in Hrows.
    simpl in Hrows. lia. }
  exists ret, (rolling_mean 20 ret), (rolling_std L 20 ret).
  rewrite Hout.
  split; [apply enriched_Daily_Return|].
  split; [apply enriched_Rolling_Mean_20|].
  split; [apply enriched_Rolling_Volatility_20|].
  rewrite <- Hout. split; [done|]. split.
  - intros i Hi Hlt. rewrite <- Lret in Hi.
    unfold rolling_std, rolling_mean, rolling_var. rewrite list_lookup_fmap.
    rewrite !(rolling_lookup_missing 20 _ ret i 0) by (done || lia). done.
  - intros i Hi Hge. rewrite <- Lret in Hi.
    replace (i - 19) with (S i - 20) by lia.
    apply rolling_mean_lookup_full; lia.
Qed.

Lemma rolling_return_columns_start_at_row_20_witness :
  ∃ out, load_data example_library flat_sixty = Ok out
    ∧ ∃ ret rmean rvol,
        column_of "Daily_Return" out = Some (Numeric ret)
        ∧ column_of "Rolling_Mean_20" out = Some (Numeric rmean)
        ∧ column_of "Rolling_Volatility_20" out = Some (Numeric rvol)
        ∧ length ret = nrows out
        ∧ (∀ i, i < nrows out → i < 20 →
             rmean !! i = Some None ∧ rvol !! i = Some None)
        ∧ ∀ i, i < nrows out → 20 ≤ i →
            rmean !! i = Some (range_mean ret (i - 19) 20).
Proof.
  destruct (load_data example_library flat_sixty) as [out|e] eqn:E.
  - exists out. split; [reflexivity|].
    exact (rolling_return_columns_start_at_row_20 _ _ _ E).
  - vm_compute in E. discriminate.
Defined.

(** X8.  In every table of the pipeline, [Date] holds the dates read from
    the kept rows, and [Month] holds at each row the month of its date,
    and no value where the date is missing. *)
Theorem month_is_of_the_parsed_date L file out :
  load_data L file = Ok out →
  ∃ raw_date date months,
    column_of "Date" file = Some raw_date
    ∧ to_datetime L raw_date = Ok date
    ∧ column_of "Date" out = Some (Datetime (keep (kept_rows file) date))
    ∧ column_of "Month" out = Some (Numeric months)
    ∧ length months = length (keep (kept_rows file) date)
    ∧ ∀ i d, keep (kept_rows file) date !! i = Some d →
        months !! i = Some ((λ t, ZQc (month t)) <$> d).
Proof.
  intros Hload.
  destruct (load_data_inv _ _ _ Hload)
    as (raw_date & date & ? & ? & ? & ? & ? & volume & H).
  destruct H as (Hd & Hdate & _ & _ & _ & _ & _ & _ & _ & _ & ->).
  eexists raw_date, date, _. split; [done|]. split; [done|].
  split; [apply enriched_Date|]. split; [apply enriched_Month|].
  split; [by rewrite length_fmap|].
  intros i d Hi. by rewrite list_lookup_fmap, Hi.
Qed.

Lemma month_is_of_the_parsed_date_witness :
  ∃ out, load_data example_library five_rows = Ok out
    ∧ ∃ raw_date date months,
        column_of "Date" five_rows = Some raw_date
        ∧ to_datetime example_library raw_date = Ok date
        ∧ column_of "Date" out
          = Some (Datetime (keep (kept_rows five_rows) date))
        ∧ column_of "Month" out = Some (Numeric months)
        ∧ length months = length (keep (kept_rows five_rows) date)
        ∧ ∀ i d, keep (kept_rows five_rows) date !! i = Some d →
            months !! i = Some ((λ t, ZQc (month t)) <$> d).
Proof.
  destruct (load_data example_library five_rows) as [out|e] eqn:E.
  - exists out. split; [reflexivity|].
    exact (month_is_of_the_parsed_date _ _ _ E).
  - vm_compute in E. discriminate.
Defined.

(** ** The columns of the table *)

Lemma alist_set_prefix name c cols : cols.*1 `prefix_of` (alist_set name c cols).*1.
Proof.
  rewrite alist_set_names. case_decide; [done|]. by apply prefix_app_r.
Qed.

Lemma elem_of_alist_set_names x name c cols :
  x ∈ (alist_set name c cols).*1 ↔ x = name ∨ x ∈ cols.*1.
Proof.
  rewrite alist_set_names. case_decide.
  - split; [auto|]. by intros [->|].
  - rewrite elem_of_app, list_elem_of_singleton. tauto.
Qed.

(** X9.  The pipeline drops no column and moves none: the names of the
    table begin with the names of the file, in their order, and the other
    names are those of the derived columns.  A name is in the table exactly
    when it is in the file or is one of the columns the pipeline writes. *)
Theorem table_columns_extend_file_columns L file out :
  load_data L file = Ok out →
  (columns file).*1 `prefix_of` (columns out).*1
  ∧ ∀ name, name ∈ (columns out).*1
      ↔ name ∈ (columns file).*1 ∨ name ∈ columns_written.
Proof.
  intros Hload.
  destruct (load_data_inv _ _ _ Hload)
    as (raw_date & date & ? & ? & ? & ? & ? & volume & H).
  destruct H as (Hd & _ & _ & _ & _ & _ & _ & _ & _ & _ & ->).
  unfold enriched. cbn [columns]. split.
  - repeat (etrans; [|apply alist_set_prefix]).
    rewrite names_prod_map. apply alist_set_prefix.
  - intros name. rewrite !elem_of_alist_set_names, names_prod_map,
      elem_of_alist_set_names.
    unfold columns_written. rewrite !elem_of_cons, elem_of_nil. tauto.
Qed.

Lemma table_columns_extend_file_columns_witness :
  ∃ out, load_data example_library five_rows = Ok out
    ∧ (columns five_rows).*1 `prefix_of` (columns out).*1
    ∧ ∀ name, name ∈ (columns out).*1
        ↔ name ∈ (columns five_rows).*1 ∨ name ∈ columns_written.
Proof.
  destruct (load_data example_library five_rows) as [out|e] eqn:E.
  - exists out. split; [reflexivity|].
    exact (table_columns_extend_file_columns _ _ _ E).
  - vm_compute in E. discriminate.
Defined.

(** ** All rows kept *)

Lemma keep_all_true {A} mask (xs : list A) :
  false ∉ mask → length xs ≤ length mask → keep mask xs = xs.
Proof.
  revert xs. induction mask as [|b mask IH]; intros [|x xs] H Hlen; simpl in *;
    try done; try lia.
  destruct b.
  - rewrite IH; [done| |lia]. intros ?. apply H. by apply list_elem_of_further.
  - destruct H. apply list_elem_of_here.
Qed.

Lemma col_keep_all_true mask c :
  false ∉ mask → col_length c ≤ length mask → col_keep mask c = c.
Proof. intros ??. destruct c; simpl in *; by rewrite keep_all_true. Qed.

(** X10.  When every row of a well-formed file has [Trades], no row is
    dropped: the table has the labels of the file, as many rows, and
    every column that the pipeline only reads is in the table as it was
    read. *)
Theorem file_without_gaps_keeps_every_row L file out trades :
  wf_frame file →
  load_data L file = Ok out →
  column_of "Trades" file = Some trades →
  false ∉ col_notna trades →
  index out = index file
  ∧ nrows out = nrows file
  ∧ ∀ name c, name ∉ columns_written → column_of name file = Some c →
      column_of name out = Some c.
Proof.
  intros Hwf Hload Ht Hall.
  pose proof (wf_column _ _ _ Hwf Ht) as Lt.
  destruct (load_data_inv _ _ _ Hload)
    as (? & date & ? & ? & ? & ? & ? & volume & H).
  destruct H as (_ & _ & _ & _ & _ & _ & _ & _ & _ & _ & ->).
  assert (kept_rows file = col_notna trades) as Hmask.
  { rewrite (kept_rows_eq _ _ Ht), take_ge; [done|].
    rewrite col_notna_length. lia. }
  assert (length (col_notna trades) = nrows file) as Lm
    by by rewrite col_notna_length.
  unfold nrows in *. rewrite enriched_index, Hmask.
  rewrite keep_all_true by (done || lia).
  split; [done|]. split; [done|].
  intros name c Hname Hc.
  rewrite (enriched_read _ _ _ _ _ _ _ _ _ _ Hname Hc).
  rewrite col_keep_all_true; [done|done|].
  pose proof (wf_column _ _ _ Hwf Hc) as Lc. unfold nrows in Lc. lia.
Qed.

Lemma file_without_gaps_keeps_every_row_witness :
  ∃ out, load_data example_library flat_sixty = Ok out
    ∧ index out = index flat_sixty
    ∧ nrows out = nrows flat_sixty
    ∧ ∀ name c, name ∉ columns_written →
        column_of name flat_sixty = Some c → column_of name out = Some c.
Proof.
  assert (wf_frame flat_sixty) as Hwf.
  { apply wf_price_frame. repeat constructor. }
  destruct (load_data example_library flat_sixty) as [out|e] eqn:E.
  - exists out. split; [reflexivity|].
    eapply (file_without_gaps_keeps_every_row _ _ _ _ Hwf E); [reflexivity|].
    by apply (bool_decide_unpack _).
  - vm_compute in E. discriminate.
Defined.

(** ** The clipping as a clamp *)

Lemma clamp_low lo hi x : (x ≤ lo)%Qc → (lo ≤ hi)%Qc → clamp lo hi x = lo.
Proof.
  intros Hx Hlh. unfold clamp. case_decide; [done|].
  assert (x = lo) as -> by (apply Qcle_antisym; [done|by apply Qcnot_lt_le]).
  rewrite decide_False; [done|]. by apply Qcle_not_lt.
Qed.

Lemma clamp_high lo hi x : (hi ≤ x)%Qc → (lo ≤ hi)%Qc → clamp lo hi x = hi.
Proof.
  intros Hx Hlh. unfold clamp.
  rewrite decide_False by (apply Qcle_not_lt; by etrans).
  case_decide; [done|].
  apply Qcle_antisym; [by apply Qcnot_lt_le|done].
Qed.

Lemma clamp_inside lo hi x : (lo ≤ x)%Qc → (x ≤ hi)%Qc → clamp lo hi x = x.
Proof.
  intros H1 H2. unfold clamp.
  rewrite decide_False by by apply Qcle_not_lt.
  by rewrite decide_False by by apply Qcle_not_lt.
Qed.

(** On a column of numbers the clipping is a clamp between the number of
    rank [n / 100] and the 99th percentile, whatever the order that
    [argsort] gives to equal numbers. *)
Lemma winsorize_clamp xs out :
  winsorize (Some <$> xs) limits = Ok out →
  ∃ lo hi,
    merge_sort Qcle xs !! (length xs / 100) = Some lo
    ∧ percentile 99 xs = Some hi
    ∧ (lo ≤ hi)%Qc
    ∧ out = (λ x, Some (clamp lo hi x)) <$> xs.
Proof.
  intros H. pose proof (winsorize_length _ _ H) as Hlen.
  pose proof (winsorize_nonempty _ _ H) as Hne.
  destruct (winsorize_lookup _ _ H)
    as (jl & jh & lo & hi & Hjl & Hlo & Hjh & Hhi & Hout).
  rewrite length_fmap in *.
  set (n := length xs) in *. set (k := n / 100) in *.
  set (s := merge_sort Qcle xs).
  assert (0 < n) as Hn by (subst n; destruct xs; simpl; [done|lia]).
  assert (2 * k + 1 ≤ n) as Hk.
  { subst k. pose proof (Nat.div_mod_eq n 100). lia. }
  assert (StronglySorted Qcle s) as Hs.
  { apply Sorted_StronglySorted; [apply _|]. apply Sorted_merge_sort, _. }
  destruct (argsort_numbers _ _ _ Hjl) as [Elo [vlo Hvlo]].
  destruct (argsort_numbers _ _ _ Hjh) as [Ehi [vhi Hvhi]].
  rewrite list_lookup_fmap, Hvlo in Hlo. rewrite list_lookup_fmap, Hvhi in Hhi.
  simpl in Hlo, Hhi. injection Hlo as <-. injection Hhi as <-.
  fold s in Elo, Ehi. rewrite Hvlo in Elo. rewrite Hvhi in Ehi.
  assert (vlo ≤ vhi)%Qc as Hlh.
  { eapply (StronglySorted_lookup_le Qcle s); [done| |done..]. lia. }
  exists vlo, vhi. unfold percentile. fold n s.
  rewrite percentile_rank_99 by done. fold k.
  split; [done|]. split; [done|]. split; [done|].
  apply list_eq. intros i. rewrite list_lookup_fmap.
  destruct (decide (i < n)) as [Hi|Hi].
  - destruct (argsort_rank (Some <$> xs) i) as [p Hp]; [by rewrite length_fmap|].
    destruct (argsort_numbers _ _ _ Hp) as [Ex [x Hx]].
    fold s in Ex. rewrite Hx in Ex.
    assert (p < n) as Hpn by (apply lookup_lt_Some in Hp;
      by rewrite argsort_length, length_fmap in Hp).
    rewrite (Hout p i (Some x)) by (rewrite ?list_lookup_fmap, ?Hx; done).
    rewrite Hx. simpl. f_equal.
    destruct (decide (p < k)); [|destruct (decide (n - k ≤ p))].
    + rewrite clamp_low; [done| |done].
      eapply (StronglySorted_lookup_le Qcle s); [done| |done..]. lia.
    + rewrite clamp_high; [done| |done].
      eapply (StronglySorted_lookup_le Qcle s); [done| |done..]. lia.
    + rewrite clamp_inside; [done| |].
      * eapply (StronglySorted_lookup_le Qcle s); [done| |done..]. lia.
      * eapply (StronglySorted_lookup_le Qcle s); [done| |done..]. lia.
  - rewrite (lookup_ge_None_2 out), (lookup_ge_None_2 xs) by lia. done.
Qed.

(** X11.  When the kept rows of [Volume] are numbers, the column [Volume]
    of the table is the column of the kept rows with each number clamped
    between two of them: the number of rank [n / 100] from below and the
    99th percentile by nearest rank.  A number between the two is left as
    it is, and the rows are not moved. *)
Theorem volume_is_clamped L file out raw_volume volumes :
  load_data L file = Ok out →
  column_of "Volume" file = Some (Numeric raw_volume) →
  keep (kept_rows file) raw_volume = Some <$> volumes →
  ∃ lo hi,
    merge_sort Qcle volumes !! (length volumes / 100) = Some lo
    ∧ percentile 99 volumes = Some hi
    ∧ (lo ≤ hi)%Qc
    ∧ column_of "Volume" out
      = Some (Numeric ((λ x, Some (clamp lo hi x)) <$> volumes))
    ∧ ∀ x, (lo ≤ x)%Qc → (x ≤ hi)%Qc → clamp lo hi x = x.
Proof.
  intros Hload Hraw Hnum.
  destruct (load_data_inv _ _ _ Hload)
    as (? & date & ? & raw_volume' & ? & ? & ? & clipped & H).
  destruct H as (_ & _ & _ & Hv & _ & _ & _ & Hw & _ & _ & ->).
  rewrite Hraw in Hv. injection Hv as <-. rewrite Hnum in Hw.
  destruct (winsorize_clamp _ _ Hw) as (lo & hi & Hlo & Hhi & Hle & ->).
  exists lo, hi. split; [done|]. split; [done|]. split; [done|].
  split; [apply enriched_Volume|]. intros v. apply clamp_inside.
Qed.

Lemma volume_is_clamped_witness :
  ∃ out volumes,
    load_data example_library outlier_two_hundred = Ok out
    ∧ column_of "Volume" outlier_two_hundred = Some (Numeric outlier_volume)
    ∧ keep (kept_rows outlier_two_hundred) outlier_volume = Some <$> volumes
    ∧ ∃ lo hi,
        merge_sort Qcle volumes !! (length volumes / 100) = Some lo
        ∧ percentile 99 volumes = Some hi
        ∧ (lo ≤ hi)%Qc
        ∧ column_of "Volume" out
          = Some (Numeric ((λ x, Some (clamp lo hi x)) <$> volumes))
        ∧ ∀ x, (lo ≤ x)%Qc → (x ≤ hi)%Qc → clamp lo hi x = x.
Proof.
  destruct (load_data example_library outlier_two_hundred) as [out|e] eqn:E.
  - exists out, (<[57 := ZQc 1100000]> (ZQc ∘ Z.of_nat <$> seq 1000 200)).
    split; [reflexivity|]. split; [reflexivity|].
    assert (keep (kept_rows outlier_two_hundred) outlier_volume
            = Some <$> <[57 := ZQc 1100000]> (ZQc ∘ Z.of_nat <$> seq 1000 200))
      as Hkept by (vm_compute; reflexivity).
    split; [exact Hkept|].
    exact (volume_is_clamped _ _ _ _ _ E eq_refl Hkept).
  - vm_compute in E. discriminate.
Defined.

(** ** The default of [fill_method] *)

(** The table of a load, from what the file holds. *)
Lemma load_data_enriched L file raw_date date trades
    raw_volume raw_close raw_high raw_low volume :
  wf_frame file →
  column_of "Date" file = Some raw_date →
  to_datetime L raw_date = Ok date →
  column_of "Trades" file = Some trades →
  column_of "Volume" file = Some (Numeric raw_volume) →
  column_of "Close" file = Some (Numeric raw_close) →
  column_of "High" file = Some (Numeric raw_high) →
  column_of "Low" file = Some (Numeric raw_low) →
  winsorize (keep (kept_rows file) raw_volume) limits = Ok volume →
  load_data L file
  = Ok (enriched L file (kept_rows file) date volume
          (keep (kept_rows file) raw_close) (keep (kept_rows file) raw_high)
          (keep (kept_rows file) raw_low)).
Proof.
  intros Hwf Hd Hdate Ht Hv Hc Hh Hl Hw.
  pose proof (wf_column _ _ _ Hwf Hd) as Ld.
  pose proof (wf_column _ _ _ Hwf Hv) as Lv.
  pose proof (wf_column _ _ _ Hwf Hc) as Lc.
  pose proof (wf_column _ _ _ Hwf Hh) as Lh.
  pose proof (wf_column _ _ _ Hwf Hl) as Ll.
  pose proof (to_datetime_length _ _ _ Hdate) as Ldate.
  pose proof (kept_rows_eq _ _ Ht) as Hmask.
  set (mask := kept_rows file) in *.
  unfold nrows in *. simpl in Lv, Lc, Lh, Ll.
  assert (∀ A (xs : list A), length xs = length (index file) →
            length (keep mask xs) = length (keep mask (index file))) as Hkeep.
  { intros A xs. apply keep_length_same. }
  pose proof (winsorize_length _ _ Hw) as Lw.
  pose proof (Hkeep _ raw_volume Lv) as Kv. rewrite Kv in Lw.
  pose proof (Hkeep _ raw_close Lc) as Kc.
  pose proof (Hkeep _ raw_high Lh) as Kh.
  pose proof (Hkeep _ raw_low Ll) as Kl.
  pose proof (Hkeep _ date (eq_trans Ldate Ld)) as Kd.
  clear Hkeep.
  assert (runs (load_data_body L) file ()
            (enriched L file mask date volume (keep mask raw_close)
               (keep mask raw_high) (keep mask raw_low))) as Hrun;
    [|unfold load_data; by rewrite Hrun].
  unfold runs, load_data_body.
  repeat first
    [ erewrite bind_runs by
        first
          [ apply runs_getitem; col_simpl;
            rewrite ?Hd, ?Ht, ?Hv, ?Hc, ?Hh, ?Hl; reflexivity
          | apply runs_lift; first [exact Hdate | exact Hw | reflexivity]
          | apply runs_dropna1; col_simpl; exact Ht
          | apply runs_setitem; frame_length ]
    | progress cbv beta
    | progress (unfold nrows; cbn [index]; rewrite <- ?Hmask) ].
  unfold setitem. rewrite decide_True by frame_length. done.
Qed.

Lemma ffill_from_numbers last xs : ffill_from last (Some <$> xs) = Some <$> xs.
Proof.
  revert last. induction xs as [|x xs IH]; intros last; csimpl; [done|].
  by rewrite IH.
Qed.

(** On a series without missing cells the two defaults give the same
    changes. *)
Lemma pct_change_numbers pad xs :
  pct_change pad (Some <$> xs) = pct_change false (Some <$> xs).
Proof. destruct pad; [|done]. unfold pct_change, ffill. by rewrite ffill_from_numbers. Qed.

(** X12.  When the kept rows of [Close] and of [Volume] are numbers, the
    table does not depend on the default of [fill_method] in
    [pct_change]: the load gives the same table with either. *)
Theorem table_is_the_same_for_either_fill_default
    L file out raw_close raw_volume closes volumes pad :
  wf_frame file →
  load_data L file = Ok out →
  column_of "Close" file = Some (Numeric raw_close) →
  keep (kept_rows file) raw_close = Some <$> closes →
  column_of "Volume" file = Some (Numeric raw_volume) →
  keep (kept_rows file) raw_volume = Some <$> volumes →
  load_data (with_pad pad L) file = Ok out.
Proof.
  intros Hwf Hload Hc Hcn Hv Hvn.
  destruct (load_data_inv _ _ _ Hload)
    as (raw_date & date & trades & rv & rc & raw_high & raw_low & volume & H).
  destruct H as (Hd & Hdate & Ht & Hv' & Hc' & Hh & Hl & Hw & _ & _ & ->).
  assert (rv = raw_volume) as -> by congruence.
  assert (rc = raw_close) as -> by congruence.
  rewrite (load_data_enriched (with_pad pad L) file raw_date date trades
             raw_volume raw_close raw_high raw_low volume); try done.
  f_equal. rewrite Hvn in Hw.
  destruct (winsorize_clamp _ _ Hw) as (lo & hi & _ & _ & _ & ->).
  rewrite Hcn. unfold enriched, rolling_std. cbn [pct_change_pad with_pad sqrt].
  set (f := λ x, clamp lo hi x).
  replace ((λ x, Some (clamp lo hi x)) <$> volumes) with (Some <$> (f <$> volumes))
    by (by rewrite <- list_fmap_compose).
  by rewrite !(pct_change_numbers pad), !(pct_change_numbers (pct_change_pad L)).
Qed.

Lemma table_is_the_same_for_either_fill_default_witness :
  ∃ out,
    load_data example_library five_rows = Ok out
    ∧ load_data (with_pad false example_library) five_rows = Ok out.
Proof.
  destruct (load_data example_library five_rows) as [out|e] eqn:E.
  - exists out. split; [reflexivity|].
    eapply (table_is_the_same_for_either_fill_default example_library five_rows
              out _ _ (ZQc <$> [10; 12; 15; 18]%Z) (ZQc <$> [100; 400; 200; 900]%Z));
      [exact wf_five_rows|exact E|reflexivity| |reflexivity|];
      by vm_compute.
  - vm_compute in E. discriminate.
Defined.

(** ** What the sections put on the page *)

Lemma emits_ret {A} d (a : A) : emits d (mret a) a [].
Proof. intros pg. by rewrite app_nil_r. Qed.

Lemma emits_bind {A B} d (m : M session A) (k : A → M session B) a b o1 o2 :
  emits d m a o1 → emits d (k a) b o2 → emits d (m ≫= k) b (o1 ++ o2).
Proof.
  intros Hm Hk pg. unfold mbind, M_bind. by rewrite Hm, Hk, app_assoc.
Qed.

Lemma emits_st d e : emits d (st e) () [e].
Proof. done. Qed.

Lemma emits_lift {A} d (r : result A) a : r = Ok a → emits d (lift r) a [].
Proof. intros -> pg. unfold lift. by rewrite app_nil_r. Qed.

Lemma emits_getitem d name c :
  column_of name d = Some c → emits d (frame (getitem name)) c [].
Proof.
  unfold column_of. intros H pg. unfold frame, getitem. simpl.
  by rewrite H, app_nil_r.
Qed.

Lemma emits_gets {A} d (f : DataFrame → A) : emits d (frame (gets f)) (f d) [].
Proof. intros pg. unfold frame, gets. simpl. by rewrite app_nil_r. Qed.

Lemma emits_select d names :
  missing_names names d = [] →
  emits d (frame (select names))
    {| index := index d;
       columns := omap (λ n, (n,.) <$> alist_lookup n (columns d)) names |} [].
Proof.
  intros H pg. unfold frame, select. simpl. by rewrite H, app_nil_r.
Qed.


Lemma emits_plot d x y kw cx cy :
  column_of x d = Some cx → column_of y d = Some cy →
  emits d (plot x y kw) (0, Plot cx cy kw) [].
Proof.
  intros Hx Hy. unfold plot.
  apply (emits_bind _ _ _ cx _ [] []); [by apply emits_getitem|].
  apply (emits_bind _ _ _ cy _ [] []); [by apply emits_getitem|].
  apply emits_ret.
Qed.

Lemma stops_bind_l {A B} d (m : M session A) (k : A → M session B) e o :
  stops d m e o → stops d (m ≫= k) e o.
Proof. intros Hm pg. unfold mbind, M_bind. by rewrite Hm. Qed.

Lemma stops_bind_r {A B} d (m : M session A) (k : A → M session B) a e o1 o2 :
  emits d m a o1 → stops d (k a) e o2 → stops d (m ≫= k) e (o1 ++ o2).
Proof.
  intros Hm Hk pg. unfold mbind, M_bind. by rewrite Hm, Hk, app_assoc.
Qed.

Lemma stops_select d names miss :
  missing_names names d = miss → miss ≠ [] →
  stops d (frame (select names)) (KeyError miss) [].
Proof.
  intros H Hne pg. unfold frame, select. simpl. rewrite H, app_nil_r.
  by destruct miss.
Qed.

(** The names of a list that a frame lacks, when it lacks exactly the
    names of [absent]. *)
Lemma missing_names_filter names d (absent : list string) :
  (∀ n, n ∈ names → (column_of n d = None ↔ n ∈ absent)) →
  missing_names names d = filter (λ n, n ∈ absent) names.
Proof.
  intros H. unfold missing_names.
  induction names as [|n names IH]; [done|].
  rewrite !filter_cons.
  assert (∀ m, m ∈ names → column_of m d = None ↔ m ∈ absent) as H'.
  { intros m Hm. apply H. by apply list_elem_of_further. }
  specialize (IH H').
  pose proof (H n (list_elem_of_here _ _)) as Hn. unfold column_of in Hn.
  destruct (decide (n ∈ absent)) as [Hin|Hnin].
  - rewrite decide_True by by apply Hn. by rewrite IH.
  - rewrite decide_False by (by rewrite Hn). done.
Qed.

Lemma missing_names_cons_Some n names d c :
  column_of n d = Some c → missing_names (n :: names) d = missing_names names d.
Proof.
  unfold missing_names, column_of. intros H.
  rewrite filter_cons. by rewrite decide_False by by rewrite H.
Qed.

Lemma missing_names_cons_None n names d :
  column_of n d = None → missing_names (n :: names) d = n :: missing_names names d.
Proof.
  unfold missing_names, column_of. intros H.
  rewrite filter_cons. by rewrite decide_True.
Qed.

Lemma missing_names_nil d : missing_names [] d = [].
Proof. done. Qed.

Ltac look :=
  first
    [ apply enriched_Volume | apply enriched_Daily_Return | apply enriched_MA5
    | apply enriched_MA20 | apply enriched_MA50 | apply enriched_Volume_Change
    | apply enriched_High_Low_Difference | apply enriched_Rolling_Volatility_20
    | apply enriched_Date | apply enriched_Month
    | eapply enriched_read; [by apply not_written|eassumption] ].

Ltac names_missing :=
  repeat first
    [ rewrite missing_names_nil
    | erewrite missing_names_cons_Some by look
    | rewrite missing_names_cons_None
        by (rewrite enriched_other by (by apply not_written);
            by match goal with H : column_of _ _ = None |- _ => rewrite H end) ].

Ltac emit_atom :=
  first
    [ apply emits_st
    | apply emits_gets
    | eapply emits_plot; look
    | eapply emits_getitem; look
    | eapply emits_lift; reflexivity
    | eapply emits_select; unfold ohlcv, corr_cols; names_missing; reflexivity ].

Ltac emit_all := repeat (eapply emits_bind; [emit_atom|cbv beta]); emit_atom.

Section pages.
Context (L : library) (file : DataFrame) (mask : list bool).
Context (date : list (option datetime)) (volume close : list cell).
Context (raw_high raw_low raw_close : list cell).
Context (Hhigh : column_of "High" file = Some (Numeric raw_high)).
Context (Hlow : column_of "Low" file = Some (Numeric raw_low)).
Context (Hclose : column_of "Close" file = Some (Numeric raw_close)).
Let d := enriched L file mask date volume close
           (keep mask raw_high) (keep mask raw_low).

Lemma metrics_page :
  ∃ out, emits d (metrics_section L) () out ∧ length out = 4
       ∧ Forall (λ e, rendered e = true) out.
Proof using Type.
  eexists. split; [unfold metrics_section, d; emit_all|].
  split; [reflexivity|repeat constructor].
Qed.


End pages.

Section broken_pages.
Context (L : library) (file : DataFrame) (mask : list bool).
Context (date : list (option datetime)) (volume close : list cell).
Context (raw_high raw_low raw_close : list cell).
Context (Hhigh : column_of "High" file = Some (Numeric raw_high)).
Context (Hlow : column_of "Low" file = Some (Numeric raw_low)).
Context (Hclose : column_of "Close" file = Some (Numeric raw_close)).
Let d := enriched L file mask date volume close
           (keep mask raw_high) (keep mask raw_low).

Lemma eda_page_without_open :
  column_of "Open" file = None →
  ∃ out, stops d eda_section (KeyError ["Open"]) out ∧ length out = 10
       ∧ Forall (λ e, rendered e = true) out.
Proof using Hhigh Hlow Hclose.
  intros Hopen. eexists. split.
  - unfold eda_section, d.
    repeat (eapply stops_bind_r; [emit_atom|cbv beta]).
    eapply stops_bind_l. eapply stops_select; [|done].
    unfold ohlcv. names_missing. reflexivity.
  - split; [reflexivity|repeat constructor].
Qed.

Lemma visuals_page_without_open :
  column_of "Open" file = None →
  stops d visuals_section (KeyError ["Open"])
    [Header "📉 Visual Explorations"; Subheader "Price Distribution Histograms"].
Proof using Hhigh Hlow Hclose.
  intros Hopen. unfold visuals_section, d.
  eapply (stops_bind_r _ _ _ () _ [_] [_]); [apply emits_st|cbv beta].
  eapply (stops_bind_r _ _ _ () _ [_] []); [apply emits_st|cbv beta].
  eapply stops_bind_l. eapply stops_select; [|done].
  unfold ohlcv. names_missing. reflexivity.
Qed.

End broken_pages.

Lemma script_of_emits L file d fl out :
  load_data L file = Ok d → emits d (render L fl) () out →
  script L (Some file) fl = out.
Proof.
  intros Hload Hr. unfold script. rewrite Hload, (Hr []). simpl.
  by rewrite app_nil_r.
Qed.

Lemma script_of_stops L file d fl e out :
  load_data L file = Ok d → stops d (render L fl) e out →
  script L (Some file) fl = out ++ [Exception e].
Proof. intros Hload Hr. unfold script. by rewrite Hload, (Hr []). Qed.






(** X15.  For a file that loads and has no column [Open], the overview
    stops at the descriptive statistics and the visualizations stop at
    their first figure, each with a [KeyError] that names [Open]; the
    sections after the one that stops are not rendered.  With neither of
    the two, the key metrics are rendered whole. *)
Theorem page_stops_without_open L file out :
  load_data L file = Ok out →
  column_of "Open" file = None →
  ∃ eda metrics,
    length eda = 10 ∧ length metrics = 4
    ∧ Forall (λ e, rendered e = true) (eda ++ metrics)
    ∧ ∀ fl,
        script L (Some file) fl
        = title ::
          (if show_eda fl then eda ++ [Exception (KeyError ["Open"])]
           else if show_visuals fl then
             [Header "📉 Visual Explorations";
              Subheader "Price Distribution Histograms";
              Exception (KeyError ["Open"])]
           else if show_metrics fl then metrics else []).
Proof.
  intros Hload Hopen.
  destruct (load_data_inv _ _ _ Hload)
    as (? & date & ? & ? & raw_close & raw_high & raw_low & volume & H).
  destruct H as (_ & _ & _ & _ & Hc & Hh & Hl & _ & _ & _ & Hout).
  destruct (eda_page_without_open L file (kept_rows file) date volume
              (keep (kept_rows file) raw_close) _ _ _ Hh Hl Hc Hopen)
    as (eda & He & Le & Fe).
  pose proof (visuals_page_without_open L file (kept_rows file) date volume
              (keep (kept_rows file) raw_close) _ _ _ Hh Hl Hc Hopen) as Hv.
  destruct (metrics_page L file (kept_rows file) date volume
              (keep (kept_rows file) raw_close) raw_high raw_low)
    as (metrics & Hm & Lm & Fm).
  rewrite <- Hout in He, Hv, Hm.
  exists eda, metrics. repeat split; try done.
  - rewrite Forall_app. done.
  - intros [[] [] met]; cbn [show_eda show_visuals show_metrics].
    + rewrite (script_of_stops _ _ out _ (KeyError ["Open"]) (title :: eda));
        [done|done|].
      unfold render. cbn [show_eda when].
      apply (stops_bind_r _ _ _ () _ [title]); [apply emits_st|].
      by apply stops_bind_l.
    + rewrite (script_of_stops _ _ out _ (KeyError ["Open"]) (title :: eda));
        [done|done|].
      unfold render. cbn [show_eda when].
      apply (stops_bind_r _ _ _ () _ [title]); [apply emits_st|].
      by apply stops_bind_l.
    + rewrite (script_of_stops _ _ out _ (KeyError ["Open"])
                 [title; Header "📉 Visual Explorations";
                  Subheader "Price Distribution Histograms"]); [done|done|].
      unfold render. cbn [show_eda show_visuals when].
      apply (stops_bind_r _ _ _ () _ [title]); [apply emits_st|].
      apply (stops_bind_r _ _ _ () _ []); [apply emits_ret|].
      by apply stops_bind_l.
    + rewrite (script_of_emits _ _ out _
                 (title :: (if met then metrics else []))); [by destruct met|done|].
      unfold render. cbn [show_eda show_visuals show_metrics when].
      apply (emits_bind _ _ _ () _ [title]); [apply emits_st|].
      apply (emits_bind _ _ _ () _ []); [apply emits_ret|].
      apply (emits_bind _ _ _ () _ []); [apply emits_ret|].
      destruct met; [done|apply emits_ret].
Qed.

Lemma page_stops_without_open_witness :
  ∃ out eda metrics,
    load_data example_library (without "Open" five_rows) = Ok out
    ∧ length eda = 10 ∧ length metrics = 4
    ∧ Forall (λ e, rendered e = true) (eda ++ metrics)
    ∧ ∀ fl,
        script example_library (Some (without "Open" five_rows)) fl
        = title ::
          (if show_eda fl then eda ++ [Exception (KeyError ["Open"])]
           else if show_visuals fl then
             [Header "📉 Visual Explorations";
              Subheader "Price Distribution Histograms";
              Exception (KeyError ["Open"])]
           else if show_metrics fl then metrics else []).
Proof.
  destruct (load_data example_library (without "Open" five_rows))
    as [out|e] eqn:E.
  - destruct (page_stops_without_open example_library
                (without "Open" five_rows) out E eq_refl)
      as (eda & metrics & H).
    exists out, eda, metrics. split; [reflexivity|exact H].
  - vm_compute in E. discriminate.
Defined.

(** ** The monthly bars *)









Section last_figure.
Context (L : library) (file : DataFrame) (mask : list bool).
Context (date : list (option datetime)) (volume close : list cell).
Context (raw_high raw_low raw_close : list cell).
Context (Hhigh : column_of "High" file = Some (Numeric raw_high)).
Context (Hlow : column_of "Low" file = Some (Numeric raw_low)).
Context (Hclose : column_of "Close" file = Some (Numeric raw_close)).
Let d := enriched L file mask date volume close
           (keep mask raw_high) (keep mask raw_low).

End last_figure.



(** ** The counts of missing values *)







Section overview.
Context (L : library) (file : DataFrame) (mask : list bool).
Context (date : list (option datetime)) (volume close : list cell).
Context (raw_high raw_low raw_close : list cell).
Context (Hhigh : column_of "High" file = Some (Numeric raw_high)).
Context (Hlow : column_of "Low" file = Some (Numeric raw_low)).
Context (Hclose : column_of "Close" file = Some (Numeric raw_close)).
Let d := enriched L file mask date volume close
           (keep mask raw_high) (keep mask raw_low).

End overview.



(** ** The average of the clipped volume *)







Section key_metrics.
Context (L : library) (file : DataFrame) (mask : list bool).
Context (date : list (option datetime)) (volume close high low : list cell).
Let d := enriched L file mask date volume close high low.

End key_metrics.


